(** * Face blur microservice: a shallow embedding of [face_blur_service.py]

    The service is a Flask application with one worker function chain:
    [download_video], [detect_faces_in_frame], [apply_face_blur],
    [process_video] and the request handler [blur_video].  Everything the
    script obtains from a library (HTTP, the temporary-file name, the video
    decoder, the cascade classifier, the Gaussian kernel, the video encoder)
    is a field of the record [Env]; the theorems hold for every [Env].
    Python exceptions are values [Raise msg], where [msg] is [str(e)].
    [print] calls only write to standard output and are left out, except for
    the arithmetic evaluated for their arguments, which can raise. *)

From stdpp Require Import base list strings gmap pretty.
From Stdlib Require Import ZArith QArith Lia Ascii.

Open Scope string_scope.
Open Scope list_scope.
Open Scope Z_scope.

(** ** Python strings *)

Module PyStr.

(** [s.startswith(old)] *)
Fixpoint startswith (old s : string) : bool :=
  match old, s with
  | EmptyString, _ => true
  | String a old', String b s' => if Ascii.eqb a b then startswith old' s' else false
  | String _ _, EmptyString => false
  end.

(** [old in s] for two strings *)
Fixpoint contains (old s : string) : bool :=
  startswith old s ||
  match s with
  | EmptyString => false
  | String _ s' => contains old s'
  end.

(** The scan of [str.replace] for a non-empty [old]: left to right, an
    occurrence that starts inside a replaced one is not seen.  [skip] counts
    the characters of the current occurrence still to be passed over. *)
Fixpoint replace_from (old new : string) (skip : nat) (s : string) : string :=
  match s with
  | EmptyString => EmptyString
  | String c s' =>
      match skip with
      | S k => replace_from old new k s'
      | O =>
          if startswith old s
          then new +:+ replace_from old new (Nat.pred (String.length old)) s'
          else String c (replace_from old new O s')
      end
  end.

(** [s.replace(old, new)] for the empty [old] puts [new] before every
    character and at the end. *)
Fixpoint intersperse (new s : string) : string :=
  match s with
  | EmptyString => new
  | String c s' => new +:+ String c (intersperse new s')
  end.

(** [s.replace(old, new)] *)
Definition replace (s old new : string) : string :=
  match old with
  | EmptyString => intersperse new s
  | String _ _ => replace_from old new O s
  end.

(** [s.endswith(suffix)] *)
Definition endswith (s suffix : string) : Prop := ∃ stem, s = stem +:+ suffix.

End PyStr.

(** ** Python values that the handler sees *)

(** The value of [request.get_json()]: [None], or what [json.loads] builds.
    A [dict] is the list of its items, keys distinct. *)
#[warnings="-register-all"]
Inductive json :=
| JNull
| JBool (b : bool)
| JInt (z : Z)
| JFloat (q : Q)
| JStr (s : string)
| JArr (items : list json)
| JObj (items : list (string * json)).

(** The outcome of a Python expression or call: a value, or an exception of
    class [Exception] with its [str(e)]. *)
Inductive result (A : Type) :=
| Ok (a : A)
| Raise (msg : string).
Arguments Ok {A} a.
Arguments Raise {A} msg.

Definition type_name (v : json) : string :=
  match v with
  | JNull => "NoneType"
  | JBool _ => "bool"
  | JInt _ => "int"
  | JFloat _ => "float"
  | JStr _ => "str"
  | JArr _ => "list"
  | JObj _ => "dict"
  end.

(** [bool(v)], as [not v] uses it *)
Definition truthy (v : json) : bool :=
  match v with
  | JNull => false
  | JBool b => b
  | JInt z => negb (z =? 0)
  | JFloat q => negb (Qeq_bool q 0)
  | JStr s => match s with EmptyString => false | String _ _ => true end
  | JArr items => match items with [] => false | _ => true end
  | JObj items => match items with [] => false | _ => true end
  end.

Fixpoint assoc {A} (key : string) (items : list (string * A)) : option A :=
  match items with
  | [] => None
  | (k, v) :: rest => if String.eqb k key then Some v else assoc key rest
  end.

Definition is_str (key : string) (v : json) : bool :=
  match v with
  | JStr s => String.eqb s key
  | _ => false
  end.

(** [key in v] for a string [key]: membership among the keys of a dict, the
    elements of a list, the substrings of a string; a [TypeError] on the
    other types. *)
Definition py_in (key : string) (v : json) : result bool :=
  match v with
  | JObj items => Ok (match assoc key items with Some _ => true | None => false end)
  | JArr items => Ok (existsb (is_str key) items)
  | JStr s => Ok (PyStr.contains key s)
  | _ => Raise ("argument of type '" +:+ type_name v +:+ "' is not iterable")
  end.

(** [v[key]] for a string [key] *)
Definition py_getitem (v : json) (key : string) : result json :=
  match v with
  | JObj items =>
      match assoc key items with
      | Some x => Ok x
      | None => Raise ("'" +:+ key +:+ "'")
      end
  | JArr _ => Raise "list indices must be integers or slices, not str"
  | JStr _ => Raise "string indices must be integers, not 'str'"
  | _ => Raise ("'" +:+ type_name v +:+ "' object is not subscriptable")
  end.

(** ** Frames and rectangles *)

(** A BGR pixel, a frame as its rows, a grey image, and a row
    [(x, y, w, h)] of the array that the classifier returns. *)
Abbreviation pixel := (Z * Z * Z)%type.
Abbreviation frame := (list (list pixel)).
Abbreviation gray := (list (list Z)).
Abbreviation rect := (Z * Z * Z * Z)%type.

Abbreviation bytes := (list Byte.byte).

(** ** Configuration constants of the script *)

Definition UPLOAD_FOLDER : string := "/tmp".
Definition MAX_VIDEO_LENGTH : Z := 300.
Definition BLUR_INTENSITY : Z := 51.
Definition FACE_DETECTION_SCALE : Q := 25 # 100.
Definition MIN_FACE_SIZE : Z := 30.

(** [cv2.VideoWriter_fourcc] applied to the four characters of ['mp4v']:
    their codes packed, first character lowest. *)
Definition VideoWriter_fourcc (c1 c2 c3 c4 : Ascii.ascii) : Z :=
  let code c := Z.of_nat (Ascii.nat_of_ascii c) in
  Z.lor (Z.lor (code c1) (Z.shiftl (code c2) 8))
        (Z.lor (Z.shiftl (code c3) 16) (Z.shiftl (code c4) 24)).

(** ** The libraries *)

(** What [requests.get(url, stream=True, timeout=30)] hands back:
    [raise_for_status()] raises [status_error] when there is one, and
    [iter_content] yields [chunks] and then raises [stream_error] when there
    is one. *)
Record http_response := {
  status_error : option string;
  chunks : list bytes;
  stream_error : option string
}.

(** An opened [cv2.VideoCapture]: the four properties as [int(cap.get(..))]
    evaluates them (the conversion raises on a NaN or an infinity) and the
    frames that successive [cap.read()] calls return before [ret] is
    [False]. *)
Record video := {
  v_fps : result Z;
  v_width : result Z;
  v_height : result Z;
  v_frame_count : result Z;
  v_frames : list frame
}.

Record Env := {
  (** [requests.get]; [Raise] is a connection error or a timeout *)
  requests_get : json → result http_response;
  (** directory, prefix and random part of the name that
      [tempfile.NamedTemporaryFile] picks *)
  tmp_stem : string;
  (** the decoder behind [cv2.VideoCapture]; [None]: [isOpened()] is false *)
  decode : bytes → option video;
  (** [cv2.cvtColor(frame, cv2.COLOR_BGR2GRAY)] *)
  cvtColor_BGR2GRAY : frame → result gray;
  (** [face_cascade.detectMultiScale(gray, scaleFactor, minNeighbors, minSize)] *)
  detectMultiScale : gray → Q → Z → Z * Z → result (list rect);
  (** [cv2.GaussianBlur(src, ksize, sigmaX)]: whether it raises, and the
      pixel it computes at row [i], column [j] of [src] *)
  blur_error : frame → Z * Z → Z → option string;
  blur_pixel : frame → Z * Z → Z → nat → nat → pixel;
  (** whether [cv2.VideoWriter(path, fourcc, fps, size)] can open its file *)
  writer_opens : string → Z → Z → Z * Z → bool;
  (** the file an open writer holds after the given frames *)
  encode : Z → Z → Z * Z → list frame → bytes;
  (** [os.remove(path)] on a file that exists: the message of the [OSError]
      when the system refuses (permissions, a busy file), [None] when the
      file is removed *)
  remove_error : string → option string
}.

(** ** The process state: files on disk and the calls made so far *)

Inductive event :=
| EvGet (url : json)
| EvCapture (path : string)
| EvRead (f : frame)
| EvDetect (f : frame)
| EvWrite (path : string) (f : frame)
| EvRemove (path : string).

(** [EvGet]: a call of [requests.get]; [EvCapture]: a [cv2.VideoCapture]
    is constructed; [EvRead]: [cap.read()] returns a frame; [EvDetect]:
    [detect_faces_in_frame] is called; [EvWrite]: [out.write] is called;
    [EvRemove]: [os.remove] is called. *)
Record State := {
  fs : gmap string bytes;
  trace : list event
}.

Definition log (e : event) (s : State) : State :=
  {| fs := fs s; trace := trace s ++ [e] |}.

Definition set_fs (f : gmap string bytes → gmap string bytes) (s : State) : State :=
  {| fs := f (fs s); trace := trace s |}.

(** A computation that reads and changes the state and may raise; the state
    reached is kept when it raises. *)
Definition M (A : Type) : Type := State → result A * State.

Definition ret {A} (a : A) : M A := λ s, (Ok a, s).
Definition raise {A} (msg : string) : M A := λ s, (Raise msg, s).
Definition lift {A} (r : result A) : M A := λ s, (r, s).
Definition bind {A B} (m : M A) (k : A → M B) : M B :=
  λ s, match m s with
       | (Ok a, s') => k a s'
       | (Raise msg, s') => (Raise msg, s')
       end.
Definition tell (e : event) : M unit := λ s, (Ok tt, log e s).

(** [try: m  except Exception as e: h(str(e))] *)
Definition try_except {A} (m : M A) (h : string → M A) : M A :=
  λ s, match m s with
       | (Ok a, s') => (Ok a, s')
       | (Raise msg, s') => h msg s'
       end.

Declare Scope py_scope.
Delimit Scope py_scope with py.
Notation "x <- e ;; k" := (bind e (λ x, k))
  (at level 100, e at next level, right associativity) : py_scope.
Open Scope py_scope.

(** ** numpy slicing *)

(** One bound of [a[start:stop]] on an axis of length [len], as
    [slice.indices] computes it: a negative bound counts from the end, and
    the result is clamped to [0..len]. *)
Definition slice_bound (len : nat) (i : Z) : nat :=
  if i <? 0 then Z.to_nat (Z.max 0 (i + Z.of_nat len))
  else Z.to_nat (Z.min i (Z.of_nat len)).

(** [l[start:stop]] *)
Definition slice {A} (l : list A) (start stop : Z) : list A :=
  let lo := slice_bound (length l) start in
  let hi := slice_bound (length l) stop in
  take (hi - lo) (drop lo l).

(** [a[y0:y1, x0:x1]] as a value *)
Definition getitem2d (a : frame) (y0 y1 x0 x1 : Z) : frame :=
  (λ row, slice row x0 x1) <$> slice a y0 y1.

Definition in_slice (len : nat) (start stop : Z) (i : nat) : bool :=
  (slice_bound len start <=? i)%nat && (i <? slice_bound len stop)%nat.

(** [a[y0:y1, x0:x1] = src], for [src] of the shape of the slice: element
    [(i, j)] of the slice receives [src[i - lo_y][j - lo_x]]. *)
Definition setitem2d (a : frame) (y0 y1 x0 x1 : Z) (src : frame) : frame :=
  imap (λ i row,
    if in_slice (length a) y0 y1 i then
      imap (λ j p,
        if in_slice (length row) x0 x1 j then
          default p (src !! (i - slice_bound (length a) y0)%nat ≫=
                     (.!! (j - slice_bound (length row) x0)%nat))
        else p) row
    else row) a.

(** [cv2.GaussianBlur(src, ksize, sigmaX)]: a new array of the shape of
    [src], or an exception. *)
Definition GaussianBlur (env : Env) (src : frame) (ksize : Z * Z) (sigmaX : Z)
  : result frame :=
  match blur_error env src ksize sigmaX with
  | Some msg => Raise msg
  | None => Ok (imap (λ i row, imap (λ j _, blur_pixel env src ksize sigmaX i j) row) src)
  end.

(** ** [detect_faces_in_frame] *)

Definition detect (env : Env) (f : frame) : result (list rect) :=
  match cvtColor_BGR2GRAY env f with
  | Raise msg => Raise msg
  | Ok g => detectMultiScale env g (11 # 10) 5 (MIN_FACE_SIZE, MIN_FACE_SIZE)
  end.

Definition detect_faces_in_frame (env : Env) (f : frame) : M (list rect) :=
  _ <- tell (EvDetect f) ;;
  lift (detect env f).

(** ** [apply_face_blur], on array values

    [blurred_frame] starts as [frame.copy()]; each rectangle is blurred in
    turn, reading the array the earlier rectangles left.  The bounds [y + h]
    and [x + w] are sums of integers; numpy adds the int32 entries of the
    classifier's array, which is the same sum as long as it fits int32
    ([fits_int32]). *)
Fixpoint blur_faces (env : Env) (blurred_frame : frame) (faces : list rect)
  : result frame :=
  match faces with
  | [] => Ok blurred_frame
  | (x, y, w, h) :: rest =>
      let face_region := getitem2d blurred_frame y (y + h) x (x + w) in
      match GaussianBlur env face_region (99, 99) BLUR_INTENSITY with
      | Raise msg => Raise msg
      | Ok blurred_face =>
          blur_faces env (setitem2d blurred_frame y (y + h) x (x + w) blurred_face) rest
      end
  end.

Definition apply_face_blur (env : Env) (f : frame) (faces : list rect) : result frame :=
  blur_faces env f faces.

(** ** [download_video] *)

(** [tempfile.NamedTemporaryFile(delete=False, suffix='.mp4')]: the file is
    created empty under a name that ends with the suffix, and stays on disk
    when it is closed. *)
Definition NamedTemporaryFile (env : Env) (suffix : string) : M string :=
  λ s, let name := tmp_stem env +:+ suffix in
       (Ok name, set_fs (insert name []) s).

(** [temp_file.write(chunk)] *)
Definition file_write (name : string) (chunk : bytes) : M unit :=
  λ s, (Ok tt, set_fs (λ m, <[name := default [] (m !! name) ++ chunk]> m) s).

Fixpoint write_chunks (name : string) (cs : list bytes) : M unit :=
  match cs with
  | [] => ret tt
  | chunk :: rest => _ <- file_write name chunk ;; write_chunks name rest
  end.

(** The handler [except Exception as e: print(..); raise] re-raises what it
    caught, so the body alone decides the outcome. *)
Definition download_video (env : Env) (url : json) : M string :=
  _ <- tell (EvGet url) ;;
  response <- lift (requests_get env url) ;;
  _ <- match status_error response with
       | Some msg => raise msg
       | None => ret tt
       end ;;
  temp_file <- NamedTemporaryFile env ".mp4" ;;
  _ <- write_chunks temp_file (chunks response) ;;
  _ <- match stream_error response with
       | Some msg => raise msg
       | None => ret tt
       end ;;
  ret temp_file.

(** ** [process_video] *)

(** A [cv2.VideoWriter] object: its constructor arguments, whether it is
    open, and the frames it has taken. *)
Record VideoWriter := {
  wr_path : string;
  wr_fourcc : Z;
  wr_fps : Z;
  wr_size : Z * Z;
  wr_opened : bool;
  wr_frames : list frame
}.

(** [cv2.VideoCapture(input_path)] followed by [cap.isOpened()] *)
Definition VideoCapture (env : Env) (input_path : string) : M (option video) :=
  _ <- tell (EvCapture input_path) ;;
  λ s, (Ok (fs s !! input_path ≫= decode env), s).

(** [cv2.VideoWriter(output_path, fourcc, fps, (width, height))]: the file
    appears when the writer can open it; nothing is raised when it cannot. *)
Definition VideoWriter_new (env : Env) (output_path : string) (fourcc fps : Z)
    (size : Z * Z) : M VideoWriter :=
  λ s, let opened := writer_opens env output_path fourcc fps size in
       (Ok {| wr_path := output_path; wr_fourcc := fourcc; wr_fps := fps;
              wr_size := size; wr_opened := opened; wr_frames := [] |},
        if opened
        then set_fs (insert output_path (encode env fourcc fps size [])) s
        else s).

(** [out.write(frame)]: a writer that is not open drops the frame. *)
Definition VideoWriter_write (env : Env) (out : VideoWriter) (f : frame)
  : M VideoWriter :=
  _ <- tell (EvWrite (wr_path out) f) ;;
  λ s, if wr_opened out then
         let frames := wr_frames out ++ [f] in
         (Ok {| wr_path := wr_path out; wr_fourcc := wr_fourcc out;
                wr_fps := wr_fps out; wr_size := wr_size out;
                wr_opened := true; wr_frames := frames |},
          set_fs (insert (wr_path out)
                    (encode env (wr_fourcc out) (wr_fps out) (wr_size out) frames)) s)
       else (Ok out, s).

(** [len(faces)] *)
Definition len {A} (l : list A) : Z := Z.of_nat (length l).

(** The two statements between [cap.read()] and [out.write(frame)]: the
    frame that is written, and the faces of it. *)
Definition process_frame (env : Env) (f : frame) (faces : list rect) : result frame :=
  if 0 <? len faces then apply_face_blur env f faces else Ok f.

(** The argument of the progress message, [frame_count / total_frames]:
    true division raises on a zero divisor. *)
Definition progress_division (frame_count total_frames : Z) : result unit :=
  if total_frames =? 0 then Raise "division by zero" else Ok tt.

(** The [while True] loop; [frames] are the frames [cap.read()] still has.
    It ends with [break] when [ret] is false, that is when none is left. *)
Fixpoint read_loop (env : Env) (out : VideoWriter) (total_frames : Z)
    (frames : list frame) (frame_count faces_found : Z) : M (Z * Z) :=
  match frames with
  | [] => ret (frame_count, faces_found)
  | f :: rest =>
      _ <- tell (EvRead f) ;;
      let frame_count := frame_count + 1 in
      faces <- detect_faces_in_frame env f ;;
      let faces_found :=
        if 0 <? len faces then faces_found + len faces else faces_found in
      f' <- lift (process_frame env f faces) ;;
      out <- VideoWriter_write env out f' ;;
      _ <- (if frame_count mod 30 =? 0
            then lift (progress_division frame_count total_frames)
            else ret tt) ;;
      read_loop env out total_frames rest frame_count faces_found
  end.

(** The body of the [try] of [process_video]; its value is [faces_found]. *)
Definition process_video_body (env : Env) (input_path output_path : string) : M Z :=
  cap <- VideoCapture env input_path ;;
  match cap with
  | None => raise "Could not open video file"
  | Some cap =>
      fps <- lift (v_fps cap) ;;
      width <- lift (v_width cap) ;;
      height <- lift (v_height cap) ;;
      total_frames <- lift (v_frame_count cap) ;;
      let fourcc := VideoWriter_fourcc "m"%char "p"%char "4"%char "v"%char in
      out <- VideoWriter_new env output_path fourcc fps (width, height) ;;
      counts <- read_loop env out total_frames (v_frames cap) 0 0 ;;
      ret (snd counts)
  end.

(** [process_video] returns the pair [(success, faces_found)]; its
    [except Exception] turns every exception of the body into [(False, 0)]. *)
Definition process_video (env : Env) (input_path output_path : string)
  : State → (bool * Z) * State :=
  λ s, match process_video_body env input_path output_path s with
       | (Ok faces_found, s') => ((true, faces_found), s')
       | (Raise _, s') => ((false, 0), s')
       end.

(** ** The handler of [POST /blur] *)

(** The request as the handler reads it: the outcome of
    [request.get_json()]; [JNull] is [None], which a body of JSON [null]
    gives; [Raise] is a body that is absent or is not JSON ([get_json]
    raises [BadRequest] or [UnsupportedMediaType]). *)
Record request := {
  get_json : result json
}.

(** A Flask response: the status code and the body given to [jsonify]. *)
Record response := {
  status : Z;
  body : json
}.

Definition error_body (msg : string) : json :=
  JObj [("success", JBool false); ("error", JStr msg)].

Definition success_body (faces_found : Z) (output_path : string) (file_size : Z) : json :=
  JObj [("success", JBool true);
        ("facesFound", JInt faces_found);
        ("outputPath", JStr output_path);
        ("fileSize", JInt file_size);
        ("message", JStr ("Blurred " +:+ pretty faces_found +:+ " faces in video"))].

(** [os.path.getsize(path)] *)
Definition getsize (path : string) : M Z :=
  λ s, match fs s !! path with
       | Some content => (Ok (len content), s)
       | None => (Raise ("[Errno 2] No such file or directory: '" +:+ path +:+ "'"), s)
       end.

(** [os.remove(path)]: raises when there is no such file, and when the
    system refuses to remove the file, which then stays. *)
Definition remove (env : Env) (path : string) : M unit :=
  _ <- tell (EvRemove path) ;;
  λ s, match fs s !! path with
       | Some _ =>
           match remove_error env path with
           | Some msg => (Raise msg, s)
           | None => (Ok tt, set_fs (delete path) s)
           end
       | None => (Raise ("[Errno 2] No such file or directory: '" +:+ path +:+ "'"), s)
       end.

(** [not data or 'videoUrl' not in data]; [or] evaluates its right operand
    only when the left one is false. *)
Definition missing_videoUrl (data : json) : result bool :=
  if negb (truthy data) then Ok true
  else match py_in "videoUrl" data with
       | Ok b => Ok (negb b)
       | Raise msg => Raise msg
       end.

(** The body of the [try] of [blur_video]. *)
Definition blur_video_body (env : Env) (req : request) : M response :=
  data <- lift (get_json req) ;;
  missing <- lift (missing_videoUrl data) ;;
  if missing then
    ret {| status := 400; body := error_body "Missing videoUrl parameter" |}
  else
    video_url <- lift (py_getitem data "videoUrl") ;;
    input_path <- download_video env video_url ;;
    let output_path := PyStr.replace input_path ".mp4" "_blurred.mp4" in
    λ s, let '(success, faces_found, s) := process_video env input_path output_path s in
         (if negb success then
            ret {| status := 500; body := error_body "Failed to process video" |}
          else
            file_size <- getsize output_path ;;
            _ <- try_except (remove env input_path) (λ _, ret tt) ;;
            ret {| status := 200;
                   body := success_body faces_found output_path file_size |}) s.

(** [blur_video]: every exception of the body becomes a 500 response that
    carries [str(e)]. *)
Definition blur_video (env : Env) (req : request) : State → response * State :=
  λ s, match blur_video_body env req s with
       | (Ok resp, s') => (resp, s')
       | (Raise msg, s') => ({| status := 500; body := error_body msg |}, s')
       end.

(** * Notions the theorems are stated with *)

(** ** Reading the trace *)

(** The frames read, the frames given to detection and the frames given to
    the writer, each in the order of the calls. *)
Definition reads (tr : list event) : list frame :=
  omap (λ e, match e with EvRead f => Some f | _ => None end) tr.
Definition detections (tr : list event) : list frame :=
  omap (λ e, match e with EvDetect f => Some f | _ => None end) tr.
Definition writes (tr : list event) : list frame :=
  omap (λ e, match e with EvWrite _ f => Some f | _ => None end) tr.

(** One completed iteration of the loop: the frame read, the rectangles
    found in it, the frame written. *)
Record iteration := {
  it_in : frame;
  it_faces : list rect;
  it_out : frame
}.

(** The iteration is one the libraries produce: detection returns these
    rectangles and the blur returns this frame. *)
Definition iteration_ok (env : Env) (it : iteration) : Prop :=
  detect env (it_in it) = Ok (it_faces it) ∧
  process_frame env (it_in it) (it_faces it) = Ok (it_out it).

(** The events of a completed iteration, in the order of the loop body. *)
Definition iteration_events (path : string) (it : iteration) : list event :=
  [EvRead (it_in it); EvDetect (it_in it); EvWrite path (it_out it)].

(** [faces_found] after the iterations [its], counted from zero. *)
Definition sum_faces (its : list iteration) : Z :=
  foldr (λ it acc, len (it_faces it) + acc) 0 its.

(** The file of the writer after it has taken [outs] more frames. *)
Definition fs_after_writes (env : Env) (out : VideoWriter) (outs : list frame)
    (m : gmap string bytes) : gmap string bytes :=
  match outs with
  | [] => m
  | _ => if wr_opened out
         then <[wr_path out := encode env (wr_fourcc out) (wr_fps out) (wr_size out)
                                 (wr_frames out ++ outs)]> m
         else m
  end.

(** The code that [process_video] passes to the writer. *)
Definition mp4v : Z := VideoWriter_fourcc "m"%char "p"%char "4"%char "v"%char.

(** The events a call added to the trace. *)
Definition new_events (s s' : State) : list event :=
  drop (length (trace s)) (trace s').

(** The sum of [len(faces)] over the per-frame results. *)
Definition sum_len (facess : list (list rect)) : Z :=
  foldr (λ faces acc, len faces + acc) 0 facess.

(** Detection followed by the blur, on one frame. *)
Definition detect_then_blur (env : Env) (f : frame) : result frame :=
  match detect env f with
  | Ok faces => process_frame env f faces
  | Raise msg => Raise msg
  end.

(** The name under which [download_video] stores the body. *)
Definition temp_name (env : Env) : string := tmp_stem env +:+ ".mp4".

(** ** The runs of the handler *)

(** [output_path] as the handler derives it from [input_path]. *)
Abbreviation blurred_name input_path :=
  (PyStr.replace input_path ".mp4" "_blurred.mp4").

(** The response of the two error branches and of the outer handler. *)
Definition error_response (code : Z) (msg : string) : response :=
  {| status := code; body := error_body msg |}.

(** The disk after [try: os.remove(path)  except: pass]: the file is gone
    unless the system refused to remove it. *)
Definition fs_after_remove (env : Env) (path : string)
    (m : gmap string bytes) : gmap string bytes :=
  match remove_error env path with
  | Some _ => m
  | None => delete path m
  end.

(** Every way a call of [blur_video] can go, in the order of the source. *)
Inductive blur_run (env : Env) (req : request) (s : State) : response → State → Prop :=
| run_bad_json msg :
    get_json req = Raise msg →
    blur_run env req s (error_response 500 msg) s
| run_bad_test data msg :
    get_json req = Ok data → missing_videoUrl data = Raise msg →
    blur_run env req s (error_response 500 msg) s
| run_missing data :
    get_json req = Ok data → missing_videoUrl data = Ok true →
    blur_run env req s (error_response 400 "Missing videoUrl parameter") s
| run_bad_subscript data msg :
    get_json req = Ok data → missing_videoUrl data = Ok false →
    py_getitem data "videoUrl" = Raise msg →
    blur_run env req s (error_response 500 msg) s
| run_download_failed data url msg s1 :
    get_json req = Ok data → missing_videoUrl data = Ok false →
    py_getitem data "videoUrl" = Ok url →
    download_video env url s = (Raise msg, s1) →
    blur_run env req s (error_response 500 msg) s1
| run_processing_failed data url input_path s1 n s2 :
    get_json req = Ok data → missing_videoUrl data = Ok false →
    py_getitem data "videoUrl" = Ok url →
    download_video env url s = (Ok input_path, s1) →
    process_video env input_path (blurred_name input_path) s1 = ((false, n), s2) →
    blur_run env req s (error_response 500 "Failed to process video") s2
| run_no_output data url input_path s1 n s2 :
    get_json req = Ok data → missing_videoUrl data = Ok false →
    py_getitem data "videoUrl" = Ok url →
    download_video env url s = (Ok input_path, s1) →
    process_video env input_path (blurred_name input_path) s1 = ((true, n), s2) →
    fs s2 !! blurred_name input_path = None →
    blur_run env req s
      (error_response 500 ("[Errno 2] No such file or directory: '" +:+
                           blurred_name input_path +:+ "'")) s2
| run_success data url input_path s1 n s2 content :
    get_json req = Ok data → missing_videoUrl data = Ok false →
    py_getitem data "videoUrl" = Ok url →
    download_video env url s = (Ok input_path, s1) →
    process_video env input_path (blurred_name input_path) s1 = ((true, n), s2) →
    fs s2 !! blurred_name input_path = Some content →
    blur_run env req s
      {| status := 200;
         body := success_body n (blurred_name input_path) (len content) |}
      {| fs := fs_after_remove env input_path (fs s2);
         trace := trace s2 ++ [EvRemove input_path] |}.

(** ** [apply_face_blur] on a store of arrays

    numpy arrays are objects: a variable holds a reference, [frame.copy()]
    makes a new object, a basic slice [a[y0:y1, x0:x1]] is a view that shares
    the elements of [a], and assigning to such a slice writes into [a]. *)
Module Store.

Abbreviation loc := nat.
Abbreviation store := (list frame).

(** A view: the array it looks into and its two ranges. *)
Record view := {
  base : loc;
  rows : Z * Z;
  cols : Z * Z
}.

Definition alloc (a : frame) (h : store) : loc * store := (length h, h ++ [a]).

(** The elements seen through a view. *)
Definition read (h : store) (v : view) : option frame :=
  a ← h !! base v;
  Some (getitem2d a (rows v).1 (rows v).2 (cols v).1 (cols v).2).

(** [a[y0:y1, x0:x1] = src], with the view naming the target. *)
Definition assign (h : store) (v : view) (src : loc) : option store :=
  s ← h !! src;
  Some (alter (λ a, setitem2d a (rows v).1 (rows v).2 (cols v).1 (cols v).2 s)
              (base v) h).

(** The [for] loop of [apply_face_blur]; a reference that names no object
    cannot arise and is reported as an exception. *)
Fixpoint blur_faces (env : Env) (blurred_frame : loc) (faces : list rect)
    (h : store) : result unit * store :=
  match faces with
  | [] => (Ok tt, h)
  | (x, y, w, ht) :: rest =>
      let face_region :=
        {| base := blurred_frame; rows := (y, y + ht); cols := (x, x + w) |} in
      match read h face_region with
      | None => (Raise "invalid reference", h)
      | Some region =>
          match GaussianBlur env region (99, 99) BLUR_INTENSITY with
          | Raise msg => (Raise msg, h)
          | Ok blurred =>
              let '(blurred_face, h1) := alloc blurred h in
              match assign h1 face_region blurred_face with
              | None => (Raise "invalid reference", h1)
              | Some h2 => blur_faces env blurred_frame rest h2
              end
          end
      end
  end.

Definition apply_face_blur (env : Env) (f : loc) (faces : list rect)
    (h : store) : result loc * store :=
  match h !! f with
  | None => (Raise "invalid reference", h)
  | Some a =>
      let '(blurred_frame, h1) := alloc a h in
      match blur_faces env blurred_frame faces h1 with
      | (Ok _, h2) => (Ok blurred_frame, h2)
      | (Raise msg, h2) => (Raise msg, h2)
      end
  end.

End Store.

(** ** Rectangles and pixels *)

(** A rectangle as the classifier reports it: origin and size are not
    negative. *)
Definition rect_wf (r : rect) : Prop :=
  let '(x, y, w, h) := r in 0 ≤ x ∧ 0 ≤ y ∧ 0 ≤ w ∧ 0 ≤ h.

(** The pixel at row [i], column [j]. *)
Definition pixel_at (a : frame) (i j : nat) : option pixel :=
  a !! i ≫= (.!! j).

(** [(i, j)] lies in the rectangle clipped to the bounds of [a]. *)
Definition in_clipped_rect (a : frame) (r : rect) (i j : nat) : Prop :=
  let '(x, y, w, h) := r in
  ∃ row, a !! i = Some row ∧
    Z.max 0 y ≤ Z.of_nat i < Z.min (y + h) (Z.of_nat (length a)) ∧
    Z.max 0 x ≤ Z.of_nat j < Z.min (x + w) (Z.of_nat (length row)).

(** The shape of an array: the lengths of its rows. *)
Definition shape (a : frame) : list nat := length <$> a.

(** ** The script section ([if __name__ == '__main__':]) *)
Module Script.

(** The comparison operators of the Python grammar. *)
Definition comparison_operators : list string :=
  ["=="; "!="; "<"; "<="; ">"; ">="; "in"; "not in"; "is"; "is not"].

(** The operator written between [os.environ.get('NODE_ENV')] and
    ['production'] in the assignment to [debug]. *)
Definition debug_operator : string := "!==".

(** The module is compiled as a whole before any of it runs. *)
Definition compiles : bool := bool_decide (debug_operator ∈ comparison_operators).

(** What [app.run] is called with. *)
Record listening := {
  host : string;
  port : Z;
  debug : bool
}.

(** [int(os.environ.get('PORT', 5001))]; [int_of_str] is [int] on a string. *)
Definition listen_port (int_of_str : string → result Z)
    (environ : gmap string string) : result Z :=
  match environ !! "PORT" with
  | Some v => int_of_str v
  | None => Ok 5001
  end.

(** Running the file as a script. *)
Definition main (int_of_str : string → result Z) (environ : gmap string string)
  : result listening :=
  if compiles then
    match listen_port int_of_str environ with
    | Raise msg => Raise msg
    | Ok p =>
        Ok {| host := "0.0.0.0"; port := p;
              debug := negb (bool_decide (environ !! "NODE_ENV" = Some "production")) |}
    end
  else Raise "invalid syntax".

End Script.

(** ** Concrete inputs *)

Definition demo_frame : frame :=
  [[(1, 2, 3); (4, 5, 6); (7, 8, 9)]; [(10, 11, 12); (13, 14, 15); (16, 17, 18)]].

Definition demo_video : video :=
  {| v_fps := Ok 30; v_width := Ok 3; v_height := Ok 2; v_frame_count := Ok 2;
     v_frames := [demo_frame; demo_frame] |}.

(** A server with a clip at [http://host/clip] and an empty body at
    [http://host/text]; the decoder opens every file that is not empty, the
    classifier finds one face in every frame, the kernel blackens. *)
Definition demo_env : Env :=
  {| requests_get := λ url,
       match url with
       | JStr "http://host/clip" =>
           Ok {| status_error := None;
                 chunks := [[Byte.x01; Byte.x02]; [Byte.x03]];
                 stream_error := None |}
       | JStr "http://host/text" =>
           Ok {| status_error := None; chunks := []; stream_error := None |}
       | _ => Raise "Invalid URL"
       end;
     tmp_stem := "/tmp/tmpk3x9a_bq";
     decode := λ b, match b with [] => None | _ => Some demo_video end;
     cvtColor_BGR2GRAY := λ f, Ok (map (map (λ p : pixel, p.1.1)) f);
     detectMultiScale := λ _ _ _ _, Ok [(1, 0, 1, 1)];
     blur_error := λ _ _ _, None;
     blur_pixel := λ _ _ _ _ _, (0, 0, 0);
     writer_opens := λ _ _ _ _, true;
     encode := λ _ _ _ frames, replicate (length frames) Byte.x00;
     remove_error := λ _, None |}.

Definition demo_state : State := {| fs := ∅; trace := [] |}.

Definition demo_request (url : string) : request :=
  {| get_json := Ok (JObj [("videoUrl", JStr url)]) |}.

Definition demo_input : string := "/tmp/tmpk3x9a_bq.mp4".
Definition demo_output : string := "/tmp/tmpk3x9a_bq_blurred.mp4".

(** The state after the download of the clip, and of the empty body. *)
Definition demo_clip_state : State :=
  (download_video demo_env (JStr "http://host/clip") demo_state).2.
Definition demo_text_state : State :=
  (download_video demo_env (JStr "http://host/text") demo_state).2.

Definition demo_run : bool * Z * State :=
  process_video demo_env demo_input demo_output demo_clip_state.

Definition demo_faces : list rect := [(1, 0, 1, 1)].
Definition demo_store : list frame := [demo_frame].


(** ** The health check *)

(** [GET /health]: [jsonify] of the two fields, with the default status. *)
Definition health : State → response * State :=
  λ s, ({| status := 200;
           body := JObj [("status", JStr "healthy");
                         ("service", JStr "face-blur-microservice")] |}, s).

(** ** Further notions *)

(** The writer object after it has taken [outs] more frames. *)
Definition writer_after (out : VideoWriter) (outs : list frame) : VideoWriter :=
  if wr_opened out then
    {| wr_path := wr_path out; wr_fourcc := wr_fourcc out; wr_fps := wr_fps out;
       wr_size := wr_size out; wr_opened := true;
       wr_frames := wr_frames out ++ outs |}
  else out.

(** The four properties of a capture all convert to integers. *)
Definition props_ok (cap : video) (fps width height total : Z) : Prop :=
  v_fps cap = Ok fps ∧ v_width cap = Ok width ∧
  v_height cap = Ok height ∧ v_frame_count cap = Ok total.

(** Detection and the blur return on the frame. *)
Definition frame_ok (env : Env) (f : frame) : Prop :=
  ∃ o, detect_then_blur env f = Ok o.

(** A value that an int32 holds.  A sum of two int32 values that fits is
    the sum of the integers; one that does not wraps around. *)
Definition fits_int32 (z : Z) : Prop := - 2 ^ 31 ≤ z < 2 ^ 31.

(** The sum of two int32 values as numpy computes it. *)
Definition int32_add (a b : Z) : Z := (a + b + 2 ^ 31) mod 2 ^ 32 - 2 ^ 31.

(** The kernel returns every pixel of its argument as it is. *)
Definition identity_kernel (env : Env) : Prop :=
  ∀ src ksize sigma i j p,
    pixel_at src i j = Some p → blur_pixel env src ksize sigma i j = p.

(** The writer that [process_video] constructs, and the state in which its
    loop starts. *)
Definition new_writer (env : Env) (outp : string) (fps : Z) (size : Z * Z) : VideoWriter :=
  {| wr_path := outp; wr_fourcc := mp4v; wr_fps := fps; wr_size := size;
     wr_opened := writer_opens env outp mp4v fps size; wr_frames := [] |}.

Definition loop_start (env : Env) (inp outp : string) (fps : Z) (size : Z * Z)
    (s : State) : State :=
  if writer_opens env outp mp4v fps size
  then set_fs (insert outp (encode env mp4v fps size [])) (log (EvCapture inp) s)
  else log (EvCapture inp) s.

(** [demo_env] with a classifier that finds no face and a kernel that
    returns the pixel it is asked for. *)
Definition demo_plain_env : Env :=
  {| requests_get := requests_get demo_env;
     tmp_stem := tmp_stem demo_env;
     decode := decode demo_env;
     cvtColor_BGR2GRAY := cvtColor_BGR2GRAY demo_env;
     detectMultiScale := λ _ _ _ _, Ok [];
     blur_error := blur_error demo_env;
     blur_pixel := λ src _ _ i j, default (0, 0, 0) (pixel_at src i j);
     writer_opens := writer_opens demo_env;
     encode := encode demo_env;
     remove_error := remove_error demo_env |}.

(** A capture whose frame count reads as zero, with thirty frames. *)
Definition demo_uncounted_video : video :=
  {| v_fps := Ok 30; v_width := Ok 3; v_height := Ok 2; v_frame_count := Ok 0;
     v_frames := replicate 30 demo_frame |}.

(** [demo_env] with that capture behind every file. *)
Definition demo_uncounted_env : Env :=
  {| requests_get := requests_get demo_env;
     tmp_stem := tmp_stem demo_env;
     decode := λ _, Some demo_uncounted_video;
     cvtColor_BGR2GRAY := cvtColor_BGR2GRAY demo_env;
     detectMultiScale := detectMultiScale demo_env;
     blur_error := blur_error demo_env;
     blur_pixel := blur_pixel demo_env;
     writer_opens := writer_opens demo_env;
     encode := encode demo_env;
     remove_error := remove_error demo_env |}.

(** [demo_env] with a writer that cannot open. *)
Definition demo_closed_env : Env :=
  {| requests_get := requests_get demo_env;
     tmp_stem := tmp_stem demo_env;
     decode := decode demo_env;
     cvtColor_BGR2GRAY := cvtColor_BGR2GRAY demo_env;
     detectMultiScale := detectMultiScale demo_env;
     blur_error := blur_error demo_env;
     blur_pixel := blur_pixel demo_env;
     writer_opens := λ _ _ _ _, false;
     encode := encode demo_env;
     remove_error := remove_error demo_env |}.

(** A capture of two frames, the second one dark. *)
Definition demo_dark_frame : frame :=
  [[(0, 0, 0); (0, 0, 0); (0, 0, 0)]; [(0, 0, 0); (0, 0, 0); (0, 0, 0)]].

Definition demo_flaky_video : video :=
  {| v_fps := Ok 30; v_width := Ok 3; v_height := Ok 2; v_frame_count := Ok 2;
     v_frames := [demo_frame; demo_dark_frame] |}.

(** [demo_env] with that capture behind every file and a classifier that
    raises on a grey image whose first pixel is zero. *)
Definition demo_flaky_env : Env :=
  {| requests_get := requests_get demo_env;
     tmp_stem := tmp_stem demo_env;
     decode := λ _, Some demo_flaky_video;
     cvtColor_BGR2GRAY := cvtColor_BGR2GRAY demo_env;
     detectMultiScale := λ g _ _ _,
       match g with
       | (0 :: _) :: _ => Raise "OpenCV(4.8.0) error: (-215:Assertion failed)"
       | _ => Ok [(1, 0, 1, 1)]
       end;
     blur_error := blur_error demo_env;
     blur_pixel := blur_pixel demo_env;
     writer_opens := writer_opens demo_env;
     encode := encode demo_env;
     remove_error := remove_error demo_env |}.

(** A request without a body: [get_json()] raises. *)
Definition demo_empty_request : request :=
  {| get_json :=
       Raise "400 Bad Request: The browser (or proxy) sent a request that this server could not understand." |}.

(** [demo_env] on a system that refuses to remove files. *)
Definition demo_sticky_env : Env :=
  {| requests_get := requests_get demo_env;
     tmp_stem := tmp_stem demo_env;
     decode := decode demo_env;
     cvtColor_BGR2GRAY := cvtColor_BGR2GRAY demo_env;
     detectMultiScale := detectMultiScale demo_env;
     blur_error := blur_error demo_env;
     blur_pixel := blur_pixel demo_env;
     writer_opens := writer_opens demo_env;
     encode := encode demo_env;
     remove_error := λ path, Some ("[Errno 13] Permission denied: '" +:+ path +:+ "'") |}.

Definition demo_clip_request : request := demo_request "http://host/clip".


(** A disk that holds one more file. *)
Definition demo_disk_state : State :=
  {| fs := {["/etc/hosts" := [Byte.x0a]]}; trace := [] |}.



(** * Proofs *)

(** ** The model on concrete inputs *)

Example replace_suffix :
  PyStr.replace "/tmp/tmpk3x9a_bq.mp4" ".mp4" "_blurred.mp4" = "/tmp/tmpk3x9a_bq_blurred.mp4".
Proof. reflexivity. Qed.

Example replace_every_occurrence :
  PyStr.replace "/data/in.mp4/tmpab12.mp4" ".mp4" "_blurred.mp4"
  = "/data/in_blurred.mp4/tmpab12_blurred.mp4".
Proof. reflexivity. Qed.

Example replace_does_not_overlap : PyStr.replace "aaa" "aa" "b" = "ba".
Proof. reflexivity. Qed.

Example replace_empty_old : PyStr.replace "abc" EmptyString "-" = "-a-b-c-".
Proof. reflexivity. Qed.

Example fourcc_mp4v : mp4v = 0x7634706d.
Proof. reflexivity. Qed.

Example slice_clamps : slice [10; 11; 12] 1 7 = [11; 12].
Proof. reflexivity. Qed.

Example slice_counts_from_the_end : slice [10; 11; 12; 13] (-2) (-1) = [12].
Proof. reflexivity. Qed.

Example slice_empty_when_reversed : slice [10; 11; 12] 2 1 = [].
Proof. reflexivity. Qed.

(** A rectangle with a negative origin is not one the classifier reports;
    numpy reads its bounds from the end of the axis, so a column of the
    frame changes that the rectangle does not cover. *)
Example negative_origin_wraps :
  apply_face_blur demo_env demo_frame [(-2, 0, 1, 1)]
  = Ok [[(1, 2, 3); (0, 0, 0); (7, 8, 9)]; [(10, 11, 12); (13, 14, 15); (16, 17, 18)]].
Proof. reflexivity. Qed.

(** A body that is a number passes [not data] and then fails in the
    membership test; the exception becomes a 500 response. *)
Example number_body :
  blur_video demo_env {| get_json := Ok (JInt 5) |} demo_state
  = (error_response 500 "argument of type 'int' is not iterable", demo_state).
Proof. reflexivity. Qed.

Example clip_is_blurred :
  (blur_video demo_env (demo_request "http://host/clip") demo_state).1
  = {| status := 200; body := success_body 2 demo_output 2 |}.
Proof. vm_compute. reflexivity. Qed.

(** ** The loop of [process_video] *)

Ltac run := unfold bind, tell, lift, ret, raise, log, set_fs in *; simpl in *.

Lemma VideoWriter_write_run env out f s :
  ∃ out',
    VideoWriter_write env out f s =
      (Ok out', {| fs := fs_after_writes env out [f] (fs s);
                   trace := trace s ++ [EvWrite (wr_path out) f] |}) ∧
    wr_path out' = wr_path out ∧ wr_opened out' = wr_opened out ∧
    wr_fourcc out' = wr_fourcc out ∧ wr_fps out' = wr_fps out ∧
    wr_size out' = wr_size out ∧
    wr_frames out' = if wr_opened out then wr_frames out ++ [f] else wr_frames out.
Proof.
  unfold VideoWriter_write, fs_after_writes. run.
  destruct (wr_opened out) eqn:Hop; eexists; split_and!; reflexivity || eauto.
Qed.

Lemma fs_after_writes_cons env out out' f outs m :
  wr_path out' = wr_path out → wr_opened out' = wr_opened out →
  wr_fourcc out' = wr_fourcc out → wr_fps out' = wr_fps out →
  wr_size out' = wr_size out →
  wr_frames out' = (if wr_opened out then wr_frames out ++ [f] else wr_frames out) →
  fs_after_writes env out' outs (fs_after_writes env out [f] m) =
  fs_after_writes env out (f :: outs) m.
Proof.
  intros Hp Ho Hc Hf Hs Hfr. unfold fs_after_writes.
  rewrite Hp, Ho, Hc, Hf, Hs, Hfr.
  destruct outs as [|o outs]; [done|].
  destruct (wr_opened out); [|done].
  rewrite insert_insert_eq. by rewrite <- app_assoc.
Qed.

Lemma read_loop_run env total frames : ∀ out fc ff s r s',
  read_loop env out total frames fc ff s = (r, s') →
  ∃ (done : list iteration) (tail : list event),
    Forall (iteration_ok env) done ∧
    trace s' = trace s ++ (done ≫= iteration_events (wr_path out)) ++ tail ∧
    fs s' = fs_after_writes env out (it_out <$> done) (fs s) ∧
    (tail = [] ∨ ∃ f, tail = [EvRead f; EvDetect f]) ∧
    ((it_in <$> done) ++ reads tail) `prefix_of` frames ∧
    (∀ counts, r = Ok counts →
       it_in <$> done = frames ∧ tail = [] ∧
       counts = (fc + len frames, ff + sum_faces done)).
Proof.
  induction frames as [|f rest IH]; intros out fc ff s r s' Hrun.
  - run. inversion Hrun; subst. exists [], []. simpl.
    rewrite app_nil_r. split_and!; auto.
    intros counts [= <-]. split_and!; auto. f_equal; unfold len; simpl; lia.
  - simpl in Hrun. unfold detect_faces_in_frame in Hrun. run.
    destruct (detect env f) as [faces|msg] eqn:Hdet.
    2:{ inversion Hrun; subst. exists [], [EvRead f; EvDetect f]. simpl.
        split_and!; eauto.
        - by rewrite <- app_assoc.
        - by apply prefix_cons, prefix_nil.
        - intros ? [=]. }
    destruct (process_frame env f faces) as [f'|msg] eqn:Hpf.
    2:{ inversion Hrun; subst. exists [], [EvRead f; EvDetect f]. simpl.
        split_and!; eauto.
        - by rewrite <- app_assoc.
        - by apply prefix_cons, prefix_nil.
        - intros ? [=]. }
    destruct (VideoWriter_write_run env out f'
                {| fs := fs s; trace := (trace s ++ [EvRead f]) ++ [EvDetect f] |})
      as (out' & Hw & Hp & Ho & Hc & Hfps & Hsz & Hfr).
    rewrite Hw in Hrun. simpl in Hrun.
    set (it := {| it_in := f; it_faces := faces; it_out := f' |}).
    assert (Hit : iteration_ok env it) by (by split).
    assert (Hff : (if 0 <? len faces then ff + len faces else ff) = ff + len faces).
    { destruct (0 <? len faces) eqn:E; [done|]. unfold len in *. lia. }
    rewrite Hff in Hrun.
    destruct ((fc + 1) mod 30 =? 0) eqn:Hmod;
      [unfold progress_division in Hrun; destruct (total =? 0) eqn:Htot|];
      simpl in Hrun.
    { inversion Hrun; subst. exists [it], []. simpl.
      split_and!; eauto.
      - by rewrite <- !app_assoc.
      - by apply prefix_cons, prefix_nil.
      - intros ? [=]. }
    all: apply IH in Hrun as (done & tail & Hok & Htr & Hfs & Htail & Hpre & Hcounts).
    all: exists (it :: done), tail; simpl in *; split_and!; auto.
    all: try (rewrite Htr, Hp; by rewrite <- !app_assoc).
    all: try (rewrite Hfs; by apply fs_after_writes_cons).
    all: try (by apply prefix_cons).
    all: intros counts Hc'; destruct (Hcounts counts Hc') as (Hall & Ht & Hcnt).
    all: split_and!; [by f_equal|done|]; rewrite Hcnt; unfold sum_faces, len; simpl.
    all: f_equal; lia.
Qed.

Lemma process_video_body_closed env inp outp s :
  fs s !! inp ≫= decode env = None →
  process_video_body env inp outp s =
    (Raise "Could not open video file", log (EvCapture inp) s).
Proof.
  intros Hcap. unfold process_video_body, VideoCapture. run. by rewrite Hcap.
Qed.

Lemma process_video_body_run env inp outp s r s' :
  process_video_body env inp outp s = (r, s') →
  ∃ (done : list iteration) (tail : list event),
    Forall (iteration_ok env) done ∧
    trace s' = trace s ++ [EvCapture inp] ++ (done ≫= iteration_events outp) ++ tail ∧
    (tail = [] ∨ ∃ f, tail = [EvRead f; EvDetect f]) ∧
    (∀ cap, fs s !! inp ≫= decode env = Some cap →
       ((it_in <$> done) ++ reads tail) `prefix_of` v_frames cap) ∧
    (fs s' = fs s ∨
     ∃ fps width height, fs s' =
       <[outp := encode env mp4v fps (width, height) (it_out <$> done)]> (fs s)) ∧
    (∀ n, r = Ok n →
       ∃ cap fps width height,
         fs s !! inp ≫= decode env = Some cap ∧
         v_fps cap = Ok fps ∧ v_width cap = Ok width ∧ v_height cap = Ok height ∧
         it_in <$> done = v_frames cap ∧ tail = [] ∧ n = sum_faces done ∧
         (writer_opens env outp mp4v fps (width, height) = true →
          fs s' = <[outp := encode env mp4v fps (width, height) (it_out <$> done)]> (fs s))).
Proof.
  intros Hrun.
  destruct (fs s !! inp ≫= decode env) as [cap|] eqn:Hcap.
  2:{ rewrite process_video_body_closed in Hrun by done. inversion Hrun; subst.
      exists [], []. simpl. split_and!; auto; done. }
  unfold process_video_body, VideoCapture in Hrun. run. rewrite Hcap in Hrun.
  assert (Hstop : ∀ msg, (Raise msg, {| fs := fs s; trace := trace s ++ [EvCapture inp] |})
                         = (r, s') →
    ∃ (done : list iteration) (tail : list event),
    Forall (iteration_ok env) done ∧
    trace s' = trace s ++ [EvCapture inp] ++ (done ≫= iteration_events outp) ++ tail ∧
    (tail = [] ∨ ∃ f, tail = [EvRead f; EvDetect f]) ∧
    (∀ cap0, Some cap = Some cap0 →
       ((it_in <$> done) ++ reads tail) `prefix_of` v_frames cap0) ∧
    (fs s' = fs s ∨
     ∃ fps width height, fs s' =
       <[outp := encode env mp4v fps (width, height) (it_out <$> done)]> (fs s)) ∧
    (∀ n, r = Ok n →
       ∃ cap0 fps width height,
         Some cap = Some cap0 ∧
         v_fps cap0 = Ok fps ∧ v_width cap0 = Ok width ∧ v_height cap0 = Ok height ∧
         it_in <$> done = v_frames cap0 ∧ tail = [] ∧ n = sum_faces done ∧
         (writer_opens env outp mp4v fps (width, height) = true →
          fs s' = <[outp := encode env mp4v fps (width, height) (it_out <$> done)]> (fs s)))).
  { intros msg [= <- <-]. exists [], []. simpl. split_and!; auto.
    - intros; apply prefix_nil.
    - intros ? [=]. }
  destruct (v_fps cap) as [fps|?] eqn:Hfps; [|eauto].
  destruct (v_width cap) as [width|?] eqn:Hwd; [|eauto].
  destruct (v_height cap) as [height|?] eqn:Hht; [|eauto].
  destruct (v_frame_count cap) as [total|?] eqn:Htot; [|eauto].
  clear Hstop. unfold VideoWriter_new in Hrun. simpl in Hrun. fold mp4v in Hrun.
  match type of Hrun with
  | context [read_loop env ?o total (v_frames cap) 0 0 ?st] =>
      set (out := o) in *; set (s1 := st) in *;
      destruct (read_loop env out total (v_frames cap) 0 0 s1) as [r1 s2] eqn:Hloop
  end.
  apply read_loop_run in Hloop as (done & tail & Hok & Htr & Hfs & Htail & Hpre & Hcounts).
  assert (Hs' : s' = s2) by (destruct r1; by inversion Hrun). subst s2.
  exists done, tail. simpl in *.
  assert (Htr1 : trace s1 = trace s ++ [EvCapture inp]).
  { unfold s1. by destruct (writer_opens env outp mp4v fps (width, height)). }
  assert (Hfs' : fs s' = (if writer_opens env outp mp4v fps (width, height)
                    then <[outp := encode env mp4v fps (width, height) (it_out <$> done)]> (fs s)
                    else fs s)).
  { rewrite Hfs. unfold fs_after_writes, s1, out. simpl.
    destruct (writer_opens env outp mp4v fps (width, height)); simpl.
    - destruct (it_out <$> done) eqn:E; [done|]. by rewrite insert_insert_eq.
    - by destruct (it_out <$> done). }
  split_and!; auto.
  - rewrite Htr, Htr1. by rewrite <- !app_assoc.
  - by intros ? [= <-].
  - rewrite Hfs'. destruct (writer_opens env outp mp4v fps (width, height)); eauto.
  - intros n ->. destruct r1 as [counts|]; [|done]. inversion Hrun; subst.
    destruct (Hcounts counts eq_refl) as (Hall & Ht & ->). simpl.
    exists cap, fps, width, height. split_and!; auto.
    intros Hop. by rewrite Hfs', Hop.
Qed.

(** ** The events of a run of [process_video] *)

Lemma reads_app tr1 tr2 : reads (tr1 ++ tr2) = reads tr1 ++ reads tr2.
Proof. apply omap_app. Qed.
Lemma detections_app tr1 tr2 : detections (tr1 ++ tr2) = detections tr1 ++ detections tr2.
Proof. apply omap_app. Qed.
Lemma writes_app tr1 tr2 : writes (tr1 ++ tr2) = writes tr1 ++ writes tr2.
Proof. apply omap_app. Qed.

Lemma reads_iterations path (done : list iteration) :
  reads (done ≫= iteration_events path) = it_in <$> done.
Proof. induction done as [|it done IH]; simpl; [done|]. unfold reads in *. simpl. by f_equal. Qed.
Lemma detections_iterations path (done : list iteration) :
  detections (done ≫= iteration_events path) = it_in <$> done.
Proof. induction done as [|it done IH]; simpl; [done|]. unfold detections in *. simpl. by f_equal. Qed.
Lemma writes_iterations path (done : list iteration) :
  writes (done ≫= iteration_events path) = it_out <$> done.
Proof. induction done as [|it done IH]; simpl; [done|]. unfold writes in *. simpl. by f_equal. Qed.

Lemma new_events_app s s' evs : trace s' = trace s ++ evs → new_events s s' = evs.
Proof. intros Htr. unfold new_events. by rewrite Htr, drop_app_length. Qed.

Lemma sum_faces_nonneg done : 0 ≤ sum_faces done.
Proof.
  induction done as [|it done IH]; [done|].
  change (sum_faces (it :: done)) with (len (it_faces it) + sum_faces done).
  unfold len. lia.
Qed.

Lemma sum_faces_sum_len done : sum_faces done = sum_len (it_faces <$> done).
Proof. induction done; simpl; [done|]. by f_equal. Qed.

Lemma iteration_ok_output env it :
  iteration_ok env it → detect_then_blur env (it_in it) = Ok (it_out it).
Proof. intros [Hd Hp]. unfold detect_then_blur. by rewrite Hd. Qed.

Lemma process_video_run env inp outp s r s' :
  process_video env inp outp s = (r, s') →
  ∃ rb, process_video_body env inp outp s = (rb, s') ∧
        r = match rb with Ok n => (true, n) | Raise _ => (false, 0) end.
Proof.
  unfold process_video. destruct (process_video_body env inp outp s) as [[n|msg] s1];
    intros [= <- <-]; eauto.
Qed.

(** What a run of [process_video] has read, detected and written. *)
Lemma process_video_run_frames env inp outp s r s' :
  process_video env inp outp s = (r, s') →
  let new := new_events s s' in
  detections new = reads new ∧
  (length (writes new) ≤ length (reads new) ≤ length (writes new) + 1)%nat ∧
  (∀ cap, fs s !! inp ≫= decode env = Some cap → reads new `prefix_of` v_frames cap) ∧
  (fst r = true →
     ∃ cap fps width height,
       fs s !! inp ≫= decode env = Some cap ∧
       v_fps cap = Ok fps ∧ v_width cap = Ok width ∧ v_height cap = Ok height ∧
       reads new = v_frames cap ∧
       detections new = v_frames cap ∧
       length (writes new) = length (v_frames cap) ∧
       (writer_opens env outp mp4v fps (width, height) = true →
        fs s' !! outp = Some (encode env mp4v fps (width, height) (writes new)))).
Proof.
  intros Hrun new. apply process_video_run in Hrun as (rb & Hbody & ->).
  apply process_video_body_run in Hbody
    as (done & tail & Hok & Htr & Htail & Hpre & Hfs & Hres).
  assert (Hnew : new = [EvCapture inp] ++ (done ≫= iteration_events outp) ++ tail)
    by (by apply new_events_app).
  assert (Hr : reads new = (it_in <$> done) ++ reads tail).
  { rewrite Hnew, !reads_app, reads_iterations. done. }
  assert (Hd : detections new = (it_in <$> done) ++ detections tail).
  { rewrite Hnew, !detections_app, detections_iterations. done. }
  assert (Hw : writes new = it_out <$> done).
  { rewrite Hnew, !writes_app, writes_iterations.
    destruct Htail as [->|[f ->]]; simpl; by rewrite app_nil_r. }
  split_and!.
  - rewrite Hr, Hd. by destruct Htail as [->|[f ->]].
  - rewrite Hr, Hw, length_app, !length_fmap.
    destruct Htail as [->|[f ->]]; simpl; lia.
  - rewrite Hr, Hw, length_app, !length_fmap.
    destruct Htail as [->|[f ->]]; simpl; lia.
  - intros cap Hcap. rewrite Hr. by apply Hpre.
  - destruct rb as [n|msg]; simpl; [intros _|done].
    destruct (Hres n eq_refl) as (cap & fps & width & height & Hcap & Hfps & Hwd & Hht
                                  & Hall & -> & Hn & Hop).
    exists cap, fps, width, height. simpl in *. rewrite app_nil_r in *.
    split_and!; auto; try congruence.
    + rewrite Hw, <- Hall. by rewrite !length_fmap.
    + intros Ho. rewrite (Hop Ho), Hw. apply lookup_insert_eq.
Qed.


(** C8.  [process_video] is a total function to pairs
    [(success, faces_found)]: an exception raised anywhere in its body gives
    [(False, 0)], in particular a capture that does not open; a body that
    completes gives [(True, n)] with [n] the sum, over all frames of the
    video, of the number of faces detected in the frame. *)
Theorem process_video_returns env inp outp s :
  (∀ msg s1, process_video_body env inp outp s = (Raise msg, s1) →
     process_video env inp outp s = ((false, 0), s1)) ∧
  (fs s !! inp ≫= decode env = None →
     process_video env inp outp s = ((false, 0), log (EvCapture inp) s)) ∧
  (∀ n s1, process_video_body env inp outp s = (Ok n, s1) →
     process_video env inp outp s = ((true, n), s1) ∧
     ∃ cap facess,
       fs s !! inp ≫= decode env = Some cap ∧
       Forall2 (λ f faces, detect env f = Ok faces) (v_frames cap) facess ∧
       n = sum_len facess) ∧
  (∃ success n s1, process_video env inp outp s = ((success, n), s1) ∧
     (success = false → n = 0)).
Proof.
  split_and!.
  - intros msg s1 Hb. unfold process_video. by rewrite Hb.
  - intros Hcap. unfold process_video. by rewrite process_video_body_closed.
  - intros n s1 Hb. split; [unfold process_video; by rewrite Hb|].
    apply process_video_body_run in Hb
      as (done & tail & Hok & Htr & Htail & Hpre & Hfs & Hres).
    destruct (Hres n eq_refl) as (cap & fps & width & height & Hcap & _ & _ & _
                                  & Hall & _ & Hn & _).
    exists cap, (it_faces <$> done). split_and!; [done| |by rewrite <- sum_faces_sum_len].
    rewrite <- Hall. apply Forall2_fmap, Forall_Forall2_diag.
    eapply Forall_impl; [exact Hok|]. by intros it [Hd _].
  - unfold process_video.
    destruct (process_video_body env inp outp s) as [[n|msg] s1].
    + exists true, n, s1. by split.
    + exists false, 0, s1. by split.
Qed.

(** ** [download_video] *)

Lemma write_chunks_run name cs : ∀ s b,
  fs s !! name = Some b →
  write_chunks name cs s =
    (Ok tt, {| fs := <[name := b ++ concat cs]> (fs s); trace := trace s |}).
Proof.
  induction cs as [|c cs IH]; intros s b Hb; simpl.
  - unfold ret. rewrite app_nil_r, insert_id by done. by destruct s.
  - unfold file_write. run. rewrite Hb. simpl.
    rewrite (IH _ (b ++ c)) by (simpl; apply lookup_insert_eq). simpl.
    by rewrite insert_insert_eq, <- app_assoc.
Qed.

Lemma download_video_run env url s r s' :
  download_video env url s = (r, s') →
  trace s' = trace s ++ [EvGet url] ∧
  (∀ p, p ≠ temp_name env → fs s' !! p = fs s !! p) ∧
  (∀ path, r = Ok path →
     path = temp_name env ∧
     ∃ resp, requests_get env url = Ok resp ∧
       status_error resp = None ∧ stream_error resp = None ∧
       fs s' = <[path := concat (chunks resp)]> (fs s)).
Proof.
  unfold download_video, NamedTemporaryFile. run. fold (temp_name env).
  destruct (requests_get env url) as [resp|msg] eqn:Hget.
  2:{ intros [= <- <-]. simpl. split_and!; auto. intros ? [=]. }
  destruct (status_error resp) as [msg|] eqn:Hst; simpl.
  { intros [= <- <-]. simpl. split_and!; auto. intros ? [=]. }
  rewrite (write_chunks_run _ _ _ []) by (simpl; apply lookup_insert_eq). simpl.
  rewrite insert_insert_eq.
  destruct (stream_error resp) as [msg|] eqn:Hse; simpl; intros [= <- <-]; simpl.
  - split_and!; auto.
    + intros p Hp. by rewrite lookup_insert_ne.
    + intros ? [=].
  - split_and!; auto.
    + intros p Hp. by rewrite lookup_insert_ne.
    + intros ? [= <-]. split; [done|]. eauto.
Qed.

(** ** The runs of the handler *)

#[local] Arguments PyStr.replace : simpl never.

Lemma blur_video_run env req s :
  blur_run env req s (blur_video env req s).1 (blur_video env req s).2.
Proof.
  unfold blur_video, blur_video_body. run.
  destruct (get_json req) as [data|msg] eqn:Hj; simpl; [|by constructor].
  destruct (missing_videoUrl data) as [[|]|msg] eqn:Hm; simpl;
    [by econstructor| |by econstructor].
  destruct (py_getitem data "videoUrl") as [url|msg] eqn:Hg; simpl;
    [|by econstructor].
  destruct (download_video env url s) as [[input_path|msg] s1] eqn:Hd; simpl;
    [|by econstructor].
  destruct (process_video env input_path (blurred_name input_path) s1)
    as [[[|] n] s2] eqn:Hp; simpl; [|by econstructor].
  unfold getsize, remove, try_except. run.
  destruct (fs s2 !! blurred_name input_path) as [content|] eqn:Ho; simpl;
    [|by econstructor].
  assert (Hfin : ∀ m, m = fs_after_remove env input_path (fs s2) →
    blur_run env req s
      {| status := 200;
         body := success_body n (blurred_name input_path) (len content) |}
      {| fs := m; trace := trace s2 ++ [EvRemove input_path] |}).
  { intros m ->. by eapply run_success. }
  unfold fs_after_remove in Hfin.
  destruct (fs s2 !! input_path) as [b|] eqn:Hi; simpl.
  - destruct (remove_error env input_path) as [msg|]; simpl; by apply Hfin.
  - apply Hfin. destruct (remove_error env input_path); [done|].
    by rewrite delete_id.
Qed.

Lemma blur_video_inv env req s resp s' :
  blur_video env req s = (resp, s') → blur_run env req s resp s'.
Proof. intros H. pose proof (blur_video_run env req s) as Hr. by rewrite H in Hr. Qed.

Lemma blur_run_det env req s resp s' :
  blur_run env req s resp s' → blur_video env req s = (resp, s').
Proof.
  intros Hr. pose proof (blur_video_run env req s) as Hv.
  destruct (blur_video env req s) as [resp0 s0]. simpl in Hv.
  destruct Hr; inversion Hv; subst; simpl in *; try congruence.
Qed.

(** ** [apply_face_blur] *)

Lemma shape_setitem2d a y0 y1 x0 x1 src :
  shape (setitem2d a y0 y1 x0 x1 src) = shape a.
Proof.
  unfold shape, setitem2d. apply list_eq. intros i.
  rewrite !list_lookup_fmap, list_lookup_imap.
  destruct (a !! i) as [row|]; simpl; [|done].
  destruct (in_slice (length a) y0 y1 i); [|done]. by rewrite length_imap.
Qed.

Lemma slice_lookup {A} (l : list A) start stop i :
  in_slice (length l) start stop i = true →
  slice l start stop !! (i - slice_bound (length l) start)%nat = l !! i.
Proof.
  unfold in_slice, slice. rewrite andb_true_iff, Nat.leb_le, Nat.ltb_lt.
  intros [Hlo Hhi]. rewrite lookup_take_lt by lia. rewrite lookup_drop. f_equal. lia.
Qed.

(** Writing back what a slice reads changes nothing: the two index
    computations agree. *)
Lemma setitem2d_getitem2d a y0 y1 x0 x1 i j :
  pixel_at (setitem2d a y0 y1 x0 x1 (getitem2d a y0 y1 x0 x1)) i j = pixel_at a i j.
Proof.
  unfold pixel_at, setitem2d, getitem2d. rewrite list_lookup_imap.
  destruct (a !! i) as [row|] eqn:Hrow; simpl; [|done].
  destruct (in_slice (length a) y0 y1 i) eqn:Hi; [|done].
  rewrite list_lookup_imap. destruct (row !! j) as [p|] eqn:Hp; simpl; [|done].
  destruct (in_slice (length row) x0 x1 j) eqn:Hj; [|done].
  rewrite list_lookup_fmap, slice_lookup, Hrow by done. simpl.
  by rewrite slice_lookup, Hp.
Qed.

Lemma in_slice_bounds len start stop i :
  0 ≤ start → 0 ≤ stop →
  in_slice len start stop i = true →
  start ≤ Z.of_nat i < Z.min stop (Z.of_nat len).
Proof.
  intros Hs He. unfold in_slice, slice_bound.
  destruct (start <? 0) eqn:E1; [lia|]. destruct (stop <? 0) eqn:E2; [lia|].
  rewrite andb_true_iff, Nat.leb_le, Nat.ltb_lt. lia.
Qed.

Lemma pixel_at_setitem2d a x y w h src i j :
  rect_wf (x, y, w, h) →
  ¬ in_clipped_rect a (x, y, w, h) i j →
  pixel_at (setitem2d a y (y + h) x (x + w) src) i j = pixel_at a i j.
Proof.
  intros (Hx & Hy & Hw & Hh) Hout. unfold pixel_at, setitem2d.
  rewrite list_lookup_imap. destruct (a !! i) as [row|] eqn:Hrow; simpl; [|done].
  destruct (in_slice (length a) y (y + h) i) eqn:Hi; [|done].
  rewrite list_lookup_imap. destruct (row !! j) as [p|] eqn:Hp; simpl; [|done].
  destruct (in_slice (length row) x (x + w) j) eqn:Hj; [|done].
  exfalso. apply Hout. exists row. split; [done|].
  apply in_slice_bounds in Hi; [|lia..]. apply in_slice_bounds in Hj; [|lia..]. lia.
Qed.

Lemma in_clipped_rect_shape a b r i j :
  shape a = shape b → in_clipped_rect a r i j → in_clipped_rect b r i j.
Proof.
  destruct r as [[[x y] w] h]. intros Hsh (row & Hrow & Hi & Hj).
  assert (Hlen : length a = length b).
  { unfold shape in Hsh. by rewrite <- (length_fmap length a), Hsh, length_fmap. }
  assert (Hr : shape b !! i = Some (length row)).
  { rewrite <- Hsh. unfold shape. by rewrite list_lookup_fmap, Hrow. }
  unfold shape in Hr. rewrite list_lookup_fmap in Hr.
  destruct (b !! i) as [row'|] eqn:Hrow'; [|done]. simpl in Hr. injection Hr as Hr.
  exists row'. split; [done|]. rewrite <- Hlen, Hr. done.
Qed.

Lemma blur_faces_outside env faces : ∀ a b,
  Forall rect_wf faces →
  blur_faces env a faces = Ok b →
  shape b = shape a ∧
  ∀ i j, (∀ r, r ∈ faces → ¬ in_clipped_rect a r i j) → pixel_at b i j = pixel_at a i j.
Proof.
  induction faces as [|[[[x y] w] h] rest IH]; intros a b Hwf Hb; simpl in Hb.
  - by injection Hb as <-.
  - destruct (GaussianBlur env _ _ _) as [blurred|msg]; [|done].
    apply Forall_cons in Hwf as [Hr Hwf].
    apply IH in Hb as [Hsh Hpix]; [|done].
    rewrite shape_setitem2d in Hsh. split; [done|].
    intros i j Hout. rewrite Hpix.
    + apply pixel_at_setitem2d; [done|]. apply Hout. by left.
    + intros r Hin Hc. apply (Hout r); [by right|].
      eapply in_clipped_rect_shape; [|exact Hc]. apply shape_setitem2d.
Qed.

Lemma store_blur_faces env bf faces : ∀ (h : list frame) cur r h',
  h !! bf = Some cur →
  Store.blur_faces env bf faces h = (r, h') →
  (∀ l, l ≠ bf → (l < length h)%nat → h' !! l = h !! l) ∧
  match r with
  | Ok _ => ∃ b, blur_faces env cur faces = Ok b ∧ h' !! bf = Some b
  | Raise msg => blur_faces env cur faces = Raise msg
  end.
Proof.
  induction faces as [|[[[x y] w] ht] rest IH]; intros h cur r h' Hbf Hrun;
    simpl in Hrun.
  - injection Hrun as <- <-. eauto.
  - unfold Store.read in Hrun. simpl in Hrun. rewrite Hbf in Hrun. simpl in Hrun.
    destruct (GaussianBlur env _ _ _) as [blurred|msg] eqn:Hg.
    2:{ injection Hrun as <- <-. simpl. rewrite Hg. by split. }
    unfold Store.assign in Hrun. simpl in Hrun.
    rewrite lookup_app_r, Nat.sub_diag in Hrun by lia. simpl in Hrun.
    assert (Hlt : (bf < length h)%nat) by (by eapply lookup_lt_Some).
    apply (IH _ (setitem2d cur y (y + ht) x (x + w) blurred)) in Hrun as [Hsame Hres].
    2:{ rewrite list_lookup_alter_eq, lookup_app_l, Hbf by done. done. }
    split; [|simpl; by rewrite Hg].
    intros l Hne Hl. rewrite Hsame; [|done|rewrite length_alter, length_app; lia].
    by rewrite list_lookup_alter_ne, lookup_app_l.
Qed.

(** C9.  [apply_face_blur] leaves the array it is given as it was, whether
    it returns or raises; the array it returns is another object, holds the
    value that [apply_face_blur] computes on array values, and agrees with
    the input at every pixel outside the union of the rectangles clipped to
    the frame.  The rectangles are face rectangles as the classifier reports
    them: origin and size not negative. *)
Theorem apply_face_blur_frame env (h : list frame) f a faces r h' :
  h !! f = Some a →
  Forall rect_wf faces →
  Store.apply_face_blur env f faces h = (r, h') →
  h' !! f = Some a ∧
  ∀ out, r = Ok out →
    out ≠ f ∧
    ∃ b, h' !! out = Some b ∧ apply_face_blur env a faces = Ok b ∧
      ∀ i j, (∀ rc, rc ∈ faces → ¬ in_clipped_rect a rc i j) →
             pixel_at b i j = pixel_at a i j.
Proof.
  intros Hf Hwf Hrun. unfold Store.apply_face_blur in Hrun. rewrite Hf in Hrun.
  simpl in Hrun.
  assert (Hlt : (f < length h)%nat) by (by eapply lookup_lt_Some).
  destruct (Store.blur_faces env (length h) faces (h ++ [a])) as [r1 h2] eqn:Hb.
  apply (store_blur_faces _ _ _ _ a) in Hb as [Hsame Hres].
  2:{ rewrite lookup_app_r, Nat.sub_diag by lia. done. }
  assert (Hkeep : h2 !! f = Some a).
  { rewrite Hsame; [by rewrite lookup_app_l|lia|rewrite length_app; lia]. }
  destruct r1 as [[]|msg]; injection Hrun as <- <-; (split; [done|]); [|done].
  intros out [= <-]. split; [lia|].
  destruct Hres as (b & Hpure & Hout). exists b. split_and!; [done..|].
  by apply blur_faces_outside in Hpure as [_ Hpix].
Qed.

(** ** [str.replace] *)

Lemma length_app_str a b : String.length (a +:+ b) = (String.length a + String.length b)%nat.
Proof. induction a as [|c a IH]; simpl; [done|]. by rewrite IH. Qed.

Lemma startswith_app old rest : PyStr.startswith old (old +:+ rest) = true.
Proof. induction old as [|c old IH]; simpl; [done|]. by rewrite Ascii.eqb_refl. Qed.

Lemma startswith_refl old : PyStr.startswith old old = true.
Proof. induction old as [|c old IH]; simpl; [done|]. by rewrite Ascii.eqb_refl. Qed.

Lemma contains_suffix stem old : PyStr.contains old (stem +:+ old) = true.
Proof.
  induction stem as [|c stem IH]; simpl.
  - destruct old; simpl; [done|]. by rewrite Ascii.eqb_refl, startswith_refl.
  - rewrite IH. apply orb_true_r.
Qed.

Lemma replace_from_length old new : ∀ s skip,
  (0 < String.length old ≤ String.length new)%nat →
  (String.length s ≤ String.length (PyStr.replace_from old new skip s) + skip)%nat.
Proof.
  induction s as [|c s IH]; intros skip Hlen; simpl; [lia|].
  destruct skip as [|k].
  - destruct (PyStr.startswith old (String c s)).
    + rewrite length_app_str. specialize (IH (Nat.pred (String.length old)) Hlen). lia.
    + simpl. specialize (IH O Hlen). lia.
  - specialize (IH k Hlen). lia.
Qed.

Lemma replace_from_longer old new : ∀ s,
  (0 < String.length old ≤ String.length new)%nat →
  PyStr.contains old s = true →
  (String.length s + String.length new ≤
   String.length (PyStr.replace_from old new O s) + String.length old)%nat.
Proof.
  induction s as [|c s IH]; intros Hlen Hin.
  - destruct old; simpl in *; [lia|done].
  - change (PyStr.contains old (String c s))
      with (PyStr.startswith old (String c s) || PyStr.contains old s) in Hin.
    change (PyStr.replace_from old new O (String c s))
      with (if PyStr.startswith old (String c s)
            then new +:+ PyStr.replace_from old new (Nat.pred (String.length old)) s
            else String c (PyStr.replace_from old new O s)).
    destruct (PyStr.startswith old (String c s)) eqn:Hsw.
    + rewrite length_app_str.
      pose proof (replace_from_length old new s (Nat.pred (String.length old)) Hlen).
      simpl. lia.
    + simpl in Hin. specialize (IH Hlen Hin). simpl. lia.
Qed.

(** The output name differs from the name of a file whose name ends in
    [.mp4], so removing the input never removes the output. *)
Lemma blurred_name_fresh stem :
  blurred_name (stem +:+ ".mp4") ≠ stem +:+ ".mp4".
Proof.
  intros Heq. apply (f_equal String.length) in Heq.
  pose proof (replace_from_longer ".mp4" "_blurred.mp4" (stem +:+ ".mp4")) as H.
  unfold PyStr.replace in Heq. simpl in H.
  specialize (H ltac:(lia) (contains_suffix stem ".mp4")). lia.
Qed.

Lemma startswith_long old : ∀ s rest,
  (String.length old ≤ String.length s)%nat →
  PyStr.startswith old (s +:+ rest) = PyStr.startswith old s.
Proof.
  induction old as [|a old IH]; intros s rest Hlen; [done|].
  destruct s as [|b s]; simpl in *; [lia|].
  destruct (Ascii.eqb a b); [|done]. apply IH. lia.
Qed.

Lemma str_app_assoc a b c : (a +:+ b) +:+ c = a +:+ (b +:+ c).
Proof.
  induction a as [|x a IH]; [done|].
  change (String x ((a +:+ b) +:+ c) = String x (a +:+ (b +:+ c))). by f_equal.
Qed.

(** X18.  For a temporary name whose stem has no [.mp4] in it, nor one
    that its last characters begin, the output name is the stem followed by
    [_blurred.mp4]: only the suffix is replaced. *)
Lemma blurred_name_plain stem :
  PyStr.contains ".mp4" (stem +:+ ".mp") = false →
  blurred_name (stem +:+ ".mp4") = stem +:+ "_blurred.mp4".
Proof.
  unfold PyStr.replace. induction stem as [|c stem IH]; intros Hno; [done|].
  change (PyStr.contains ".mp4" (String c stem +:+ ".mp"))
    with (PyStr.startswith ".mp4" (String c (stem +:+ ".mp")) ||
          PyStr.contains ".mp4" (stem +:+ ".mp")) in Hno.
  apply orb_false_iff in Hno as [Hsw Hno].
  change (PyStr.replace_from ".mp4" "_blurred.mp4" 0 (String c stem +:+ ".mp4"))
    with (if PyStr.startswith ".mp4" (String c (stem +:+ ".mp4"))
          then "_blurred.mp4" +:+ PyStr.replace_from ".mp4" "_blurred.mp4" 3 (stem +:+ ".mp4")
          else String c (PyStr.replace_from ".mp4" "_blurred.mp4" 0 (stem +:+ ".mp4"))).
  assert (Hsw' : PyStr.startswith ".mp4" (String c (stem +:+ ".mp4")) = false).
  { change (String c (stem +:+ ".mp4")) with (String c stem +:+ (".mp" +:+ "4")).
    rewrite <- str_app_assoc. etrans; [|exact Hsw].
    apply startswith_long. simpl. rewrite length_app_str. simpl. lia. }
  rewrite Hsw'.
  change (String c stem +:+ "_blurred.mp4") with (String c (stem +:+ "_blurred.mp4")).
  f_equal. by apply IH.
Qed.

(** ** The responses of the handler *)

Lemma has_videoUrl items url :
  assoc "videoUrl" items = Some url →
  missing_videoUrl (JObj items) = Ok false ∧
  py_getitem (JObj items) "videoUrl" = Ok url.
Proof.
  intros Ha. unfold missing_videoUrl, py_getitem, py_in. rewrite Ha.
  destruct items; [done|]. done.
Qed.

(** C6, as amended.  A request whose JSON body is [null] ([get_json()]
    returns [None]) or is an object without the key [videoUrl] is answered
    with status 400 and
    the body [{success: false, error}]; the state is unchanged: no request
    is sent, no file is written, no video is opened. *)
Theorem blur_video_missing_parameter env req s data :
  get_json req = Ok data →
  data = JNull ∨ (∃ items, data = JObj items ∧ assoc "videoUrl" items = None) →
  blur_video env req s =
    ({| status := 400;
        body := JObj [("success", JBool false);
                      ("error", JStr "Missing videoUrl parameter")] |}, s).
Proof.
  intros Hj Hd. apply blur_run_det.
  apply (run_missing env req s data Hj).
  destruct Hd as [->|(items & -> & Ha)]; [done|].
  unfold missing_videoUrl, py_in. rewrite Ha. by destruct items.
Qed.

(** C3, as amended.  A request with a [videoUrl] whose download succeeds,
    whose processing succeeds and whose output file is on disk when
    processing ends is answered with status 200 and the body
    [{success: true, facesFound, outputPath, fileSize, message}], where
    [facesFound] is not negative. *)
Theorem blur_video_success env req s items url input_path s1 n s2 content :
  get_json req = Ok (JObj items) →
  assoc "videoUrl" items = Some url →
  download_video env url s = (Ok input_path, s1) →
  process_video env input_path (blurred_name input_path) s1 = ((true, n), s2) →
  fs s2 !! blurred_name input_path = Some content →
  ∃ s',
    blur_video env req s =
      ({| status := 200;
          body := JObj [("success", JBool true);
                        ("facesFound", JInt n);
                        ("outputPath", JStr (blurred_name input_path));
                        ("fileSize", JInt (len content));
                        ("message", JStr ("Blurred " +:+ pretty n +:+ " faces in video"))] |},
       s') ∧
    0 ≤ n.
Proof.
  intros Hj Ha Hd Hp Ho. destruct (has_videoUrl _ _ Ha) as [Hm Hg].
  eexists. split.
  - apply blur_run_det. by eapply run_success.
  - apply process_video_run in Hp as (rb & Hb & Hr).
    destruct rb as [k|]; [|done]. injection Hr as <-.
    apply process_video_body_run in Hb as (done & tail & _ & _ & _ & _ & _ & Hres).
    destruct (Hres _ eq_refl) as (? & ? & ? & ? & _ & _ & _ & _ & _ & _ & -> & _).
    apply sum_faces_nonneg.
Qed.

(** C1, as amended.  A request whose download raises is answered with
    status 500 and [{success: false, error}] where [error] is the message of
    that exception; a request whose processing fails is answered with status
    500 and [{success: false, error}] where [error] is the fixed text
    [Failed to process video]. *)
Theorem blur_video_failure env req s items url :
  get_json req = Ok (JObj items) →
  assoc "videoUrl" items = Some url →
  (∀ msg s1,
     download_video env url s = (Raise msg, s1) →
     blur_video env req s =
       ({| status := 500;
           body := JObj [("success", JBool false); ("error", JStr msg)] |}, s1)) ∧
  (∀ input_path s1 n s2,
     download_video env url s = (Ok input_path, s1) →
     process_video env input_path (blurred_name input_path) s1 = ((false, n), s2) →
     blur_video env req s =
       ({| status := 500;
           body := JObj [("success", JBool false);
                         ("error", JStr "Failed to process video")] |}, s2)).
Proof.
  intros Hj Ha. destruct (has_videoUrl _ _ Ha) as [Hm Hg]. split.
  - intros msg s1 Hd. apply blur_run_det. by eapply run_download_failed.
  - intros input_path s1 n s2 Hd Hp. apply blur_run_det.
    by eapply run_processing_failed.
Qed.

(** C10.  In every response with status 200, [outputPath] is the path of
    the downloaded temporary file with every [.mp4] replaced by
    [_blurred.mp4], and that path ends in [.mp4]. *)
Theorem blur_video_output_path env req s resp s' :
  blur_video env req s = (resp, s') →
  status resp = 200 →
  ∃ url s1 input_path,
    download_video env url s = (Ok input_path, s1) ∧
    PyStr.endswith input_path ".mp4" ∧
    py_getitem (body resp) "outputPath" =
      Ok (JStr (PyStr.replace input_path ".mp4" "_blurred.mp4")).
Proof.
  intros Hrun Hst. apply blur_video_inv in Hrun.
  destruct Hrun; simpl in Hst; try discriminate.
  exists url, s1, input_path. split_and!; [done| |done].
  match goal with Hd : download_video _ _ _ = _ |- _ =>
    apply download_video_run in Hd as (_ & _ & Hok) end.
  destruct (Hok _ eq_refl) as [-> _]. by exists (tmp_stem env).
Qed.

Lemma process_video_keeps_other_files env inp outp s r s' p :
  process_video env inp outp s = (r, s') → p ≠ outp → fs s' !! p = fs s !! p.
Proof.
  intros Hrun Hne. apply process_video_run in Hrun as (rb & Hb & _).
  apply process_video_body_run in Hb as (done & tail & _ & _ & _ & _ & Hfs & _).
  destruct Hfs as [->|(fps & wd & ht & ->)]; [done|]. by rewrite lookup_insert_ne.
Qed.

(** C2, where the handler departs from it.  When the download succeeds and
    [process_video] reports failure, the handler returns its 500 response
    before the clean-up, and the downloaded file is still on disk at the end
    of the request. *)
Theorem blur_video_leaves_input_on_failure env req s items url input_path s1 n s2 :
  get_json req = Ok (JObj items) →
  assoc "videoUrl" items = Some url →
  download_video env url s = (Ok input_path, s1) →
  process_video env input_path (blurred_name input_path) s1 = ((false, n), s2) →
  ∃ resp s' content,
    blur_video env req s = (resp, s') ∧
    status resp = 500 ∧
    fs s' !! input_path = Some content.
Proof.
  intros Hj Ha Hd Hp. destruct (has_videoUrl _ _ Ha) as [Hm Hg].
  pose proof (download_video_run _ _ _ _ _ Hd) as (_ & _ & Hok).
  destruct (Hok _ eq_refl) as (-> & resp & _ & _ & _ & Hfs).
  exists (error_response 500 "Failed to process video"), s2, (concat (chunks resp)).
  split_and!; [apply blur_run_det; by eapply run_processing_failed|done|].
  rewrite (process_video_keeps_other_files _ _ _ _ _ _ _ Hp).
  - rewrite Hfs. apply lookup_insert_eq.
  - intros Heq. symmetry in Heq. by apply blurred_name_fresh in Heq.
Qed.

(** X17.  When the response has status 200, the output file is on disk,
    and the temporary input file is gone from the disk exactly when
    [os.remove] did not refuse to remove it: a removal that raises is passed
    over by the bare [except], the response is the same, and the input
    stays. *)
Lemma blur_video_cleans_up_on_success env req s resp s' :
  blur_video env req s = (resp, s') →
  status resp = 200 →
  is_Some (fs s' !! blurred_name (temp_name env)) ∧
  (fs s' !! temp_name env = None ↔ remove_error env (temp_name env) = None).
Proof.
  intros Hrun Hst. apply blur_video_inv in Hrun.
  destruct Hrun as [| | | | | | |d url inp s1 n s2 c _ _ _ Hd Hp Hc];
    simpl in Hst; try discriminate.
  pose proof (download_video_run _ _ _ _ _ Hd) as (_ & _ & Hok).
  destruct (Hok _ eq_refl) as (-> & r & _ & _ & _ & Hfs).
  assert (Hne : blurred_name (temp_name env) ≠ temp_name env)
    by apply blurred_name_fresh.
  assert (Hin : fs s2 !! temp_name env = Some (concat (chunks r))).
  { rewrite (process_video_keeps_other_files _ _ _ _ _ _ _ Hp) by done.
    rewrite Hfs. apply lookup_insert_eq. }
  simpl. unfold fs_after_remove.
  destruct (remove_error env (temp_name env)) as [msg|] eqn:Hre.
  - split; [eauto|]. rewrite Hin. split; intros [=].
  - rewrite lookup_delete_ne by done. split; [eauto|].
    split; [done|]. intros _. apply lookup_delete_eq.
Qed.

(** ** The script section *)

(** C7, where the script departs from it.  Whatever the environment, running
    the file as a script stops with a syntax error, and [app.run] is never
    called. *)
Theorem script_never_listens int_of_str environ :
  Script.main int_of_str environ = Raise "invalid syntax".
Proof. reflexivity. Qed.

Lemma listen_port_default int_of_str (environ : gmap string string) :
  environ !! "PORT" = None → Script.listen_port int_of_str environ = Ok 5001.
Proof. intros H. unfold Script.listen_port. by rewrite H. Qed.

Lemma listen_port_set int_of_str (environ : gmap string string) v :
  environ !! "PORT" = Some v → Script.listen_port int_of_str environ = int_of_str v.
Proof. intros H. unfold Script.listen_port. by rewrite H. Qed.

(** ** The theorems at concrete inputs *)

(** C3 fails when the writer cannot open.  The clip is downloaded,
    [process_video] returns [(True, 2)], no output file exists, and
    [os.path.getsize] raises: the response has status 500. *)
Lemma blur_video_success_without_output :
  (download_video demo_closed_env (JStr "http://host/clip") demo_state).1
    = Ok demo_input ∧
  (process_video demo_closed_env demo_input demo_output
     (download_video demo_closed_env (JStr "http://host/clip") demo_state).2).1
    = (true, 2) ∧
  (blur_video demo_closed_env (demo_request "http://host/clip") demo_state).1 =
    {| status := 500;
       body := JObj [("success", JBool false);
                     ("error", JStr "[Errno 2] No such file or directory: '/tmp/tmpk3x9a_bq_blurred.mp4'")] |}.
Proof. split_and!; vm_compute; reflexivity. Qed.

(** C6 fails on a request without a body.  [get_json()] raises inside the
    [try], and the response has status 500, not 400. *)
Lemma blur_video_absent_body :
  blur_video demo_env demo_empty_request demo_state =
    ({| status := 500;
        body := JObj [("success", JBool false);
                      ("error", JStr "400 Bad Request: The browser (or proxy) sent a request that this server could not understand.")] |},
     demo_state) ∧
  status (blur_video demo_env demo_empty_request demo_state).1 ≠ 400.
Proof. split; [reflexivity|]. vm_compute. discriminate. Qed.

(** C1 fails on a processing failure.  The body at [http://host/text] is
    downloaded, the capture does not open, the exception says
    [Could not open video file], and the response carries another text. *)
Lemma blur_video_hides_processing_error :
  (download_video demo_env (JStr "http://host/text") demo_state).1 = Ok demo_input ∧
  (process_video_body demo_env demo_input demo_output demo_text_state).1 =
    Raise "Could not open video file" ∧
  (blur_video demo_env (demo_request "http://host/text") demo_state).1 =
    {| status := 500;
       body := JObj [("success", JBool false);
                     ("error", JStr "Failed to process video")] |} ∧
  (blur_video demo_env (demo_request "http://host/text") demo_state).1 ≠
    {| status := 500;
       body := JObj [("success", JBool false);
                     ("error", JStr "Could not open video file")] |}.
Proof. split_and!; [vm_compute; reflexivity..|]. vm_compute. discriminate. Qed.

Lemma blur_video_failure_witness :
  blur_video demo_env (demo_request "zzz") demo_state =
    ({| status := 500;
        body := JObj [("success", JBool false); ("error", JStr "Invalid URL")] |},
     log (EvGet (JStr "zzz")) demo_state) ∧
  blur_video demo_env (demo_request "http://host/text") demo_state =
    ({| status := 500;
        body := JObj [("success", JBool false);
                      ("error", JStr "Failed to process video")] |},
     log (EvCapture demo_input) demo_text_state).
Proof.
  split.
  - apply (proj1 (blur_video_failure demo_env (demo_request "zzz") demo_state
                    [("videoUrl", JStr "zzz")] (JStr "zzz") eq_refl eq_refl)).
    vm_compute. reflexivity.
  - apply (proj2 (blur_video_failure demo_env (demo_request "http://host/text")
                    demo_state [("videoUrl", JStr "http://host/text")]
                    (JStr "http://host/text") eq_refl eq_refl)
             demo_input demo_text_state 0).
    + vm_compute. reflexivity.
    + vm_compute. reflexivity.
Defined.


Lemma blur_video_missing_parameter_witness :
  blur_video demo_env {| get_json := Ok JNull |} demo_state =
    ({| status := 400;
        body := JObj [("success", JBool false);
                      ("error", JStr "Missing videoUrl parameter")] |}, demo_state) ∧
  blur_video demo_env {| get_json := Ok (JObj [("url", JStr "http://host/clip")]) |}
      demo_state =
    ({| status := 400;
        body := JObj [("success", JBool false);
                      ("error", JStr "Missing videoUrl parameter")] |}, demo_state).
Proof.
  split.
  - apply (blur_video_missing_parameter demo_env {| get_json := Ok JNull |}
             demo_state JNull eq_refl).
    by left.
  - apply (blur_video_missing_parameter demo_env
             {| get_json := Ok (JObj [("url", JStr "http://host/clip")]) |}
             demo_state (JObj [("url", JStr "http://host/clip")]) eq_refl).
    right. eexists. split; reflexivity.
Defined.

Lemma blur_video_success_witness :
  ∃ s',
    blur_video demo_env (demo_request "http://host/clip") demo_state =
      ({| status := 200;
          body := JObj [("success", JBool true);
                        ("facesFound", JInt 2);
                        ("outputPath", JStr demo_output);
                        ("fileSize", JInt 2);
                        ("message", JStr "Blurred 2 faces in video")] |}, s') ∧
    0 ≤ 2.
Proof.
  apply (blur_video_success demo_env (demo_request "http://host/clip") demo_state
           [("videoUrl", JStr "http://host/clip")] (JStr "http://host/clip")
           demo_input demo_clip_state 2 demo_run.2 [Byte.x00; Byte.x00]
           eq_refl eq_refl).
  - vm_compute. reflexivity.
  - vm_compute. reflexivity.
  - vm_compute. reflexivity.
Defined.

Lemma blur_video_output_path_witness :
  ∃ url s1 input_path,
    download_video demo_env url demo_state = (Ok input_path, s1) ∧
    PyStr.endswith input_path ".mp4" ∧
    py_getitem (body (blur_video demo_env (demo_request "http://host/clip") demo_state).1)
               "outputPath" =
      Ok (JStr (PyStr.replace input_path ".mp4" "_blurred.mp4")).
Proof.
  apply (blur_video_output_path demo_env (demo_request "http://host/clip") demo_state
           _ (blur_video demo_env (demo_request "http://host/clip") demo_state).2).
  - vm_compute. reflexivity.
  - vm_compute. reflexivity.
Defined.

Lemma blur_video_leaves_input_on_failure_witness :
  ∃ resp s' content,
    blur_video demo_env (demo_request "http://host/text") demo_state = (resp, s') ∧
    status resp = 500 ∧
    fs s' !! demo_input = Some content.
Proof.
  apply (blur_video_leaves_input_on_failure demo_env
           (demo_request "http://host/text") demo_state
           [("videoUrl", JStr "http://host/text")] (JStr "http://host/text")
           demo_input demo_text_state 0 (log (EvCapture demo_input) demo_text_state)
           eq_refl eq_refl).
  - vm_compute. reflexivity.
  - vm_compute. reflexivity.
Defined.

Lemma apply_face_blur_frame_witness :
  (Store.apply_face_blur demo_env 0 demo_faces demo_store).2 !! 0%nat = Some demo_frame ∧
  ∀ out, (Store.apply_face_blur demo_env 0 demo_faces demo_store).1 = Ok out →
    out ≠ 0%nat ∧
    ∃ b, (Store.apply_face_blur demo_env 0 demo_faces demo_store).2 !! out = Some b ∧
      apply_face_blur demo_env demo_frame demo_faces = Ok b ∧
      ∀ i j, (∀ rc, rc ∈ demo_faces → ¬ in_clipped_rect demo_frame rc i j) →
             pixel_at b i j = pixel_at demo_frame i j.
Proof.
  apply (apply_face_blur_frame demo_env demo_store 0 demo_frame demo_faces).
  - reflexivity.
  - repeat constructor; simpl; lia.
  - vm_compute. reflexivity.
Defined.

(** * Further properties *)

(** ** The loop, forwards *)

Lemma writer_after_nil out : writer_after out [] = out.
Proof.
  unfold writer_after. destruct out as [p c f sz o fr]; simpl.
  destruct o; [|done]. by rewrite app_nil_r.
Qed.

Lemma writer_after_cons out o outs :
  writer_after (writer_after out [o]) outs = writer_after out (o :: outs).
Proof.
  unfold writer_after. destruct (wr_opened out) eqn:Ho; simpl; [|by rewrite Ho].
  by rewrite <- app_assoc.
Qed.

Lemma writer_after_path out outs : wr_path (writer_after out outs) = wr_path out.
Proof. unfold writer_after. by destruct (wr_opened out). Qed.

Lemma VideoWriter_write_after env out f s :
  VideoWriter_write env out f s =
    (Ok (writer_after out [f]),
     {| fs := fs_after_writes env out [f] (fs s);
        trace := trace s ++ [EvWrite (wr_path out) f] |}).
Proof.
  unfold VideoWriter_write, writer_after, fs_after_writes. run.
  by destruct (wr_opened out).
Qed.

Lemma fs_after_writes_after env out o outs m :
  fs_after_writes env (writer_after out [o]) outs (fs_after_writes env out [o] m) =
  fs_after_writes env out (o :: outs) m.
Proof.
  apply fs_after_writes_cons; unfold writer_after; by destruct (wr_opened out) eqn:E.
Qed.

(** One iteration whose detection and blur return and whose progress
    message, when one is due, can be computed. *)
Lemma read_loop_step env out total f rest fc ff s faces o :
  detect env f = Ok faces →
  process_frame env f faces = Ok o →
  ((fc + 1) mod 30 = 0 → total ≠ 0) →
  read_loop env out total (f :: rest) fc ff s =
  read_loop env (writer_after out [o]) total rest (fc + 1) (ff + len faces)
    {| fs := fs_after_writes env out [o] (fs s);
       trace := trace s ++ [EvRead f; EvDetect f; EvWrite (wr_path out) o] |}.
Proof.
  intros Hd Hp Hdiv. simpl. unfold detect_faces_in_frame. run.
  rewrite Hd, Hp, VideoWriter_write_after. simpl.
  assert (Hff : (if 0 <? len faces then ff + len faces else ff) = ff + len faces).
  { destruct (0 <? len faces) eqn:E; [done|]. unfold len in *. lia. }
  rewrite Hff, <- !app_assoc. simpl.
  destruct ((fc + 1) mod 30 =? 0) eqn:Hm; [|done].
  unfold progress_division. destruct (total =? 0) eqn:Ht; [|done].
  exfalso. apply Hdiv; lia.
Qed.

(** One iteration whose progress message divides by zero. *)
Lemma read_loop_step_div env out f rest fc ff s faces o :
  detect env f = Ok faces →
  process_frame env f faces = Ok o →
  (fc + 1) mod 30 = 0 →
  read_loop env out 0 (f :: rest) fc ff s =
  (Raise "division by zero",
   {| fs := fs_after_writes env out [o] (fs s);
      trace := trace s ++ [EvRead f; EvDetect f; EvWrite (wr_path out) o] |}).
Proof.
  intros Hd Hp Hdiv. simpl. unfold detect_faces_in_frame. run.
  rewrite Hd, Hp, VideoWriter_write_after. simpl.
  rewrite <- !app_assoc. simpl.
  destruct ((fc + 1) mod 30 =? 0) eqn:Hm; [done|lia].
Qed.

(** The loop over iterations that all return continues with what is left. *)
Lemma read_loop_app env total rest : ∀ its out fc ff s,
  Forall (iteration_ok env) its →
  (∀ i, (i < length its)%nat → (fc + Z.of_nat i + 1) mod 30 = 0 → total ≠ 0) →
  read_loop env out total ((it_in <$> its) ++ rest) fc ff s =
  read_loop env (writer_after out (it_out <$> its)) total rest
    (fc + len its) (ff + sum_faces its)
    {| fs := fs_after_writes env out (it_out <$> its) (fs s);
       trace := trace s ++ (its ≫= iteration_events (wr_path out)) |}.
Proof.
  induction its as [|it its IH]; intros out fc ff s Hok Hdiv.
  - simpl. rewrite writer_after_nil, app_nil_r. unfold len. simpl.
    rewrite !Z.add_0_r. by destruct s.
  - apply Forall_cons in Hok as [[Hd Hp] Hok].
    change ((it_in <$> it :: its) ++ rest) with (it_in it :: ((it_in <$> its) ++ rest)).
    rewrite (read_loop_step _ _ _ _ _ _ _ _ _ _ Hd Hp).
    2:{ intros Hm. apply (Hdiv O); [simpl; lia|]. by rewrite Z.add_0_r. }
    rewrite IH; [|done|].
    2:{ intros i Hi Hm. apply (Hdiv (S i)); [simpl; lia|].
        rewrite <- Hm. f_equal. lia. }
    cbn [fs trace]. rewrite fmap_cons, bind_cons.
    rewrite writer_after_cons, fs_after_writes_after, writer_after_path.
    rewrite <- app_assoc.
    change (sum_faces (it :: its)) with (len (it_faces it) + sum_faces its).
    f_equal; unfold len, iteration_events; simpl; try lia.
Qed.

(** ** [process_video], forwards *)

Lemma fs_after_writes_app env out a b m :
  fs_after_writes env (writer_after out a) b (fs_after_writes env out a m) =
  fs_after_writes env out (a ++ b) m.
Proof.
  destruct a as [|x a]; [by rewrite writer_after_nil|].
  destruct b as [|y b]; [by rewrite app_nil_r|].
  unfold fs_after_writes, writer_after. simpl.
  destruct (wr_opened out) eqn:Ho; simpl; [|by rewrite Ho].
  by rewrite insert_insert_eq, <- app_assoc.
Qed.

Lemma process_video_body_open env inp outp s cap fps width height total :
  fs s !! inp ≫= decode env = Some cap →
  props_ok cap fps width height total →
  process_video_body env inp outp s =
    bind (read_loop env (new_writer env outp fps (width, height)) total
            (v_frames cap) 0 0)
         (λ counts, ret (snd counts))
         (loop_start env inp outp fps (width, height) s).
Proof.
  intros Hcap (Hf & Hw & Hh & Ht).
  unfold process_video_body, VideoCapture, VideoWriter_new, loop_start, new_writer.
  run. rewrite Hcap, Hf, Hw, Hh, Ht. simpl. fold mp4v.
  by destruct (writer_opens env outp mp4v fps (width, height)).
Qed.

Lemma process_video_body_bad_props env inp outp s cap :
  fs s !! inp ≫= decode env = Some cap →
  (∀ fps width height total, ¬ props_ok cap fps width height total) →
  ∃ msg, process_video_body env inp outp s = (Raise msg, log (EvCapture inp) s).
Proof.
  intros Hcap Hbad. unfold process_video_body, VideoCapture. run. rewrite Hcap.
  destruct (v_fps cap) as [fps|?] eqn:Hf; [|eauto].
  destruct (v_width cap) as [width|?] eqn:Hw; [|eauto].
  destruct (v_height cap) as [height|?] eqn:Hh; [|eauto].
  destruct (v_frame_count cap) as [total|?] eqn:Ht; [|eauto].
  by destruct (Hbad fps width height total).
Qed.

Lemma frames_ok_iterations env frames :
  Forall (frame_ok env) frames →
  ∃ its, Forall (iteration_ok env) its ∧ it_in <$> its = frames.
Proof.
  induction 1 as [|f frames [o Ho] _ (its & Hits & Hin)]; [by exists []|].
  unfold detect_then_blur in Ho. destruct (detect env f) as [faces|] eqn:Hd; [|done].
  exists ({| it_in := f; it_faces := faces; it_out := o |} :: its).
  split; [|simpl; by f_equal]. by constructor.
Qed.

Lemma iterations_frames_ok env its :
  Forall (iteration_ok env) its → Forall (frame_ok env) (it_in <$> its).
Proof.
  intros H. apply Forall_fmap. eapply Forall_impl; [exact H|].
  intros it Hit. exists (it_out it). by apply iteration_ok_output.
Qed.

Lemma loop_start_trace env inp outp fps size s :
  trace (loop_start env inp outp fps size s) = trace s ++ [EvCapture inp].
Proof. unfold loop_start. by destruct (writer_opens env outp mp4v fps size). Qed.

Lemma loop_start_fs env inp outp fps size s outs :
  fs_after_writes env (new_writer env outp fps size) outs
    (fs (loop_start env inp outp fps size s)) =
  if writer_opens env outp mp4v fps size
  then <[outp := encode env mp4v fps size outs]> (fs s)
  else fs s.
Proof.
  unfold fs_after_writes, loop_start, new_writer. simpl.
  destruct (writer_opens env outp mp4v fps size); simpl.
  - destruct outs; [done|]. by rewrite insert_insert_eq.
  - by destruct outs.
Qed.

(** The loop over frames that are all fine and few enough, or counted. *)
Lemma read_loop_all env out total its s :
  Forall (iteration_ok env) its →
  (total = 0 → (length its < 30)%nat) →
  read_loop env out total (it_in <$> its) 0 0 s =
    (Ok (len its, sum_faces its),
     {| fs := fs_after_writes env out (it_out <$> its) (fs s);
        trace := trace s ++ (its ≫= iteration_events (wr_path out)) |}).
Proof.
  intros Hok Hdiv.
  rewrite <- (app_nil_r (it_in <$> its)), read_loop_app; [done|done|].
  intros i Hi Hm Ht. specialize (Hdiv Ht).
  rewrite Z.mod_small in Hm by lia. lia.
Qed.

(** The loop at the thirtieth frame of a capture whose frame count is zero. *)
Lemma read_loop_uncounted env out its s :
  Forall (iteration_ok env) its →
  (30 ≤ length its)%nat →
  read_loop env out 0 (it_in <$> its) 0 0 s =
    (Raise "division by zero",
     {| fs := fs_after_writes env out (it_out <$> take 30 its) (fs s);
        trace := trace s ++ (take 30 its ≫= iteration_events (wr_path out)) |}).
Proof.
  intros Hok Hlen.
  destruct (drop 29 its) as [|it rest] eqn:Hdrop.
  { apply (f_equal length) in Hdrop. rewrite length_drop in Hdrop. simpl in Hdrop. lia. }
  assert (Hsplit : its = take 29 its ++ it :: rest).
  { by rewrite <- Hdrop, take_drop. }
  assert (H30 : take 30 its = take 29 its ++ [it]).
  { rewrite Hsplit at 1. rewrite take_app_ge by (rewrite length_take; lia).
    rewrite length_take. replace (30 - 29 `min` length its)%nat with 1%nat by lia.
    done. }
  assert (Hok29 : Forall (iteration_ok env) (take 29 its)) by (by apply Forall_take).
  assert (Hit : iteration_ok env it).
  { rewrite Forall_forall in Hok. apply Hok. rewrite Hsplit. set_solver. }
  rewrite Hsplit at 1. rewrite fmap_app, fmap_cons.
  rewrite read_loop_app; [|done|].
  2:{ intros i Hi Hm. rewrite length_take in Hi.
      rewrite Z.mod_small in Hm by lia. lia. }
  destruct Hit as [Hd Hp].
  rewrite (read_loop_step_div _ _ _ _ _ _ _ _ _ Hd Hp).
  2:{ unfold len. rewrite length_take.
      replace (29 `min` length its)%nat with 29%nat by lia. done. }
  cbn [fs trace]. rewrite writer_after_path, H30.
  rewrite fs_after_writes_app, fmap_app, bind_app, <- app_assoc. simpl.
  done.
Qed.


Lemma process_video_forward env inp outp s cap fps width height total its :
  fs s !! inp ≫= decode env = Some cap →
  props_ok cap fps width height total →
  Forall (iteration_ok env) its →
  it_in <$> its = v_frames cap →
  (total = 0 → (length its < 30)%nat) →
  process_video env inp outp s =
    ((true, sum_faces its),
     {| fs := if writer_opens env outp mp4v fps (width, height)
              then <[outp := encode env mp4v fps (width, height) (it_out <$> its)]> (fs s)
              else fs s;
        trace := trace s ++ [EvCapture inp] ++ (its ≫= iteration_events outp) |}).
Proof.
  intros Hcap Hprops Hok Hin Hdiv. unfold process_video.
  rewrite (process_video_body_open _ _ _ _ _ _ _ _ _ Hcap Hprops), <- Hin.
  unfold bind. rewrite read_loop_all by done. simpl. unfold ret.
  by rewrite loop_start_fs, loop_start_trace, <- app_assoc.
Qed.

(** C4, as amended.  In every run of [process_video], face detection is
    called on exactly the frames that [cap.read()] returned, in their order,
    and these are an initial part of the frames of the video; every
    completed iteration passes one frame to [out.write], so the frames
    written are as many as the frames read, or one fewer when the last
    iteration raised.  In a run that returns [True], every frame of the
    video was read and passed to detection (no frame is skipped), as many
    frames were passed to [out.write] as were read, and the file of an open
    writer holds exactly those frames.  And the run does return [True] when
    the capture opens, its properties convert, detection and the blur return
    on every frame, and the progress message can be computed. *)
Theorem process_video_every_frame env inp outp s r s' :
  process_video env inp outp s = (r, s') →
  let new := new_events s s' in
  detections new = reads new ∧
  (length (writes new) ≤ length (reads new) ≤ length (writes new) + 1)%nat ∧
  (∀ cap, fs s !! inp ≫= decode env = Some cap → reads new `prefix_of` v_frames cap) ∧
  (fst r = true →
     ∃ cap fps width height,
       fs s !! inp ≫= decode env = Some cap ∧
       v_fps cap = Ok fps ∧ v_width cap = Ok width ∧ v_height cap = Ok height ∧
       reads new = v_frames cap ∧
       detections new = v_frames cap ∧
       length (writes new) = length (v_frames cap) ∧
       (writer_opens env outp mp4v fps (width, height) = true →
        fs s' !! outp = Some (encode env mp4v fps (width, height) (writes new)))) ∧
  (∀ cap fps width height total,
     fs s !! inp ≫= decode env = Some cap →
     props_ok cap fps width height total →
     Forall (frame_ok env) (v_frames cap) →
     (total = 0 → (length (v_frames cap) < 30)%nat) →
     fst r = true).
Proof.
  intros Hrun new.
  destruct (process_video_run_frames _ _ _ _ _ _ Hrun)
    as (Hd & [Hw1 Hw2] & Hpre & Hsucc).
  split_and!; [exact Hd|exact Hw1|exact Hw2|exact Hpre|exact Hsucc|].
  intros cap fps width height total Hcap Hprops Hok Hdiv.
  apply frames_ok_iterations in Hok as (its & Hok & Hin).
  rewrite (process_video_forward _ _ _ _ _ _ _ _ _ _ Hcap Hprops Hok Hin) in Hrun.
  - by injection Hrun as <- _.
  - intros Ht. specialize (Hdiv Ht). by rewrite <- Hin, length_fmap in Hdiv.
Qed.

Lemma process_video_every_frame_witness :
  let new := new_events demo_clip_state demo_run.2 in
  detections new = reads new ∧
  (length (writes new) ≤ length (reads new) ≤ length (writes new) + 1)%nat ∧
  (∀ cap, fs demo_clip_state !! demo_input ≫= decode demo_env = Some cap →
     reads new `prefix_of` v_frames cap) ∧
  (fst demo_run.1 = true →
     ∃ cap fps width height,
       fs demo_clip_state !! demo_input ≫= decode demo_env = Some cap ∧
       v_fps cap = Ok fps ∧ v_width cap = Ok width ∧ v_height cap = Ok height ∧
       reads new = v_frames cap ∧
       detections new = v_frames cap ∧
       length (writes new) = length (v_frames cap) ∧
       (writer_opens demo_env demo_output mp4v fps (width, height) = true →
        fs demo_run.2 !! demo_output =
          Some (encode demo_env mp4v fps (width, height) (writes new)))) ∧
  (∀ cap fps width height total,
     fs demo_clip_state !! demo_input ≫= decode demo_env = Some cap →
     props_ok cap fps width height total →
     Forall (frame_ok demo_env) (v_frames cap) →
     (total = 0 → (length (v_frames cap) < 30)%nat) →
     fst demo_run.1 = true).
Proof.
  apply (process_video_every_frame demo_env demo_input demo_output demo_clip_state
           demo_run.1 demo_run.2).
  vm_compute. reflexivity.
Defined.

(** C4 fails in a run that raises, and for a writer that is not open.  With
    a classifier that raises on the second of two frames, [process_video]
    has read two frames and written one when it returns [(False, 0)].  With
    a writer that cannot open, it returns [(True, 2)] after reading two
    frames, and there is no output video. *)
Lemma process_video_stops_mid_frame :
  let flaky := process_video demo_flaky_env demo_input demo_output demo_clip_state in
  let closed := process_video demo_closed_env demo_input demo_output demo_clip_state in
  flaky.1 = (false, 0) ∧
  length (reads (new_events demo_clip_state flaky.2)) = 2%nat ∧
  length (writes (new_events demo_clip_state flaky.2)) = 1%nat ∧
  closed.1 = (true, 2) ∧
  length (reads (new_events demo_clip_state closed.2)) = 2%nat ∧
  fs closed.2 !! demo_output = None.
Proof. split_and!; vm_compute; reflexivity. Qed.

(** X1.  [process_video] reports success exactly when the capture opens,
    its four properties convert to integers, detection and the blur return
    on every frame, and the frame count is not zero or fewer than thirty
    frames are read (the progress message, due at every thirtieth frame,
    divides by the frame count). *)
Theorem process_video_succeeds_iff env inp outp s :
  (process_video env inp outp s).1.1 = true ↔
  ∃ cap fps width height total,
    fs s !! inp ≫= decode env = Some cap ∧
    props_ok cap fps width height total ∧
    Forall (frame_ok env) (v_frames cap) ∧
    (total = 0 → (length (v_frames cap) < 30)%nat).
Proof.
  split.
  - intros Hsucc.
    destruct (fs s !! inp ≫= decode env) as [cap|] eqn:Hcap.
    2:{ unfold process_video in Hsucc.
        by rewrite process_video_body_closed in Hsucc. }
    destruct (v_fps cap) as [fps|m1] eqn:Hf; [
    destruct (v_width cap) as [width|m2] eqn:Hw; [
    destruct (v_height cap) as [height|m3] eqn:Hh; [
    destruct (v_frame_count cap) as [total|m4] eqn:Ht |]|]|].
    2-5: exfalso;
      destruct (process_video_body_bad_props env inp outp s cap Hcap) as [msg Hb];
      [ intros ???? (? & ? & ? & ?); congruence
      | unfold process_video in Hsucc; by rewrite Hb in Hsucc ].
    assert (Hprops : props_ok cap fps width height total) by done.
    exists cap, fps, width, height, total. split_and!; [done..| |].
    + unfold process_video in Hsucc.
      destruct (process_video_body env inp outp s) as [[n|msg] s1] eqn:Hb; [|done].
      apply process_video_body_run in Hb as (dn & tail & Hok & _ & _ & _ & _ & Hres).
      destruct (Hres n eq_refl) as (cap' & ? & ? & ? & Hcap' & _ & _ & _ & Hall & _).
      rewrite Hcap in Hcap'. injection Hcap' as <-. rewrite <- Hall.
      by apply iterations_frames_ok.
    + intros ->. destruct (decide (length (v_frames cap) < 30)%nat) as [|Hge]; [done|].
      exfalso. unfold process_video in Hsucc.
      destruct (process_video_body env inp outp s) as [[n|msg] s1] eqn:Hb; [|done].
      pose proof Hb as Hb'.
      apply process_video_body_run in Hb' as (dn & tail & Hok & _ & _ & _ & _ & Hres).
      destruct (Hres n eq_refl) as (cap' & ? & ? & ? & Hcap' & _ & _ & _ & Hall & _).
      rewrite Hcap in Hcap'. injection Hcap' as <-.
      rewrite (process_video_body_open _ _ _ _ _ _ _ _ _ Hcap Hprops), <- Hall in Hb.
      unfold bind in Hb. rewrite read_loop_uncounted in Hb; [done|done|].
      rewrite <- Hall, length_fmap in Hge. lia.
  - intros (cap & fps & width & height & total & Hcap & Hprops & Hok & Hdiv).
    apply frames_ok_iterations in Hok as (its & Hok & Hin).
    rewrite (process_video_forward _ _ _ _ _ _ _ _ _ _ Hcap Hprops Hok Hin); [done|].
    intros Ht. specialize (Hdiv Ht). by rewrite <- Hin, length_fmap in Hdiv.
Qed.

(** X2.  A capture whose frame count reads as zero and that delivers thirty
    or more frames, all of them fine, makes [process_video] return
    [(False, 0)]: the thirtieth frame is written, then the progress message
    divides by zero.  Exactly the first thirty frames were read and thirty
    frames were written. *)
Theorem process_video_uncounted env inp outp s cap fps width height :
  fs s !! inp ≫= decode env = Some cap →
  props_ok cap fps width height 0 →
  Forall (frame_ok env) (v_frames cap) →
  (30 ≤ length (v_frames cap))%nat →
  ∃ s', process_video env inp outp s = ((false, 0), s') ∧
        reads (new_events s s') = take 30 (v_frames cap) ∧
        length (writes (new_events s s')) = 30%nat.
Proof.
  intros Hcap Hprops Hok Hlen.
  apply frames_ok_iterations in Hok as (its & Hok & Hin).
  assert (Hlen' : (30 ≤ length its)%nat) by (by rewrite <- Hin, length_fmap in Hlen).
  unfold process_video.
  rewrite (process_video_body_open _ _ _ _ _ _ _ _ _ Hcap Hprops), <- Hin.
  unfold bind. rewrite read_loop_uncounted by done. eexists. split; [done|].
  erewrite new_events_app.
  2:{ cbn [trace]. by rewrite loop_start_trace, <- app_assoc. }
  rewrite reads_app, writes_app, reads_iterations, writes_iterations. simpl.
  split; [by rewrite fmap_take|]. rewrite length_fmap, length_take. lia.
Qed.

(** X3.  Once the writer is open, the output file holds the encoding of
    exactly the frames passed to [out.write], whether [process_video] goes
    on to succeed or to fail: a failed run leaves its partial output on
    disk.  No other file is changed.  When the writer cannot open, no file is
    changed at all. *)
Theorem process_video_output_on_disk env inp outp s cap fps width height total r s' :
  fs s !! inp ≫= decode env = Some cap →
  props_ok cap fps width height total →
  process_video env inp outp s = (r, s') →
  fs s' = if writer_opens env outp mp4v fps (width, height)
          then <[outp := encode env mp4v fps (width, height)
                           (writes (new_events s s'))]> (fs s)
          else fs s.
Proof.
  intros Hcap Hprops Hrun. apply process_video_run in Hrun as (rb & Hb & _).
  rewrite (process_video_body_open _ _ _ _ _ _ _ _ _ Hcap Hprops) in Hb.
  unfold bind in Hb.
  destruct (read_loop env _ total (v_frames cap) 0 0 _) as [r1 s2] eqn:Hloop.
  assert (Hs : s2 = s') by (destruct r1; by inversion Hb). subst s2.
  apply read_loop_run in Hloop as (dn & tail & _ & Htr & Hfs & Htail & _).
  rewrite Hfs, loop_start_fs. rewrite loop_start_trace in Htr.
  erewrite new_events_app by (by rewrite Htr, <- app_assoc).
  rewrite !writes_app, writes_iterations.
  destruct Htail as [->|[f ->]]; simpl; by rewrite app_nil_r.
Qed.


(** ** [download_video], forwards *)




(** ** The handler, further *)

Lemma fs_after_remove_ne env path (m : gmap string bytes) p :
  p ≠ path → fs_after_remove env path m !! p = m !! p.
Proof.
  intros Hne. unfold fs_after_remove. destruct (remove_error env path); [done|].
  by rewrite lookup_delete_ne.
Qed.

Lemma py_getitem_object data key v :
  py_getitem data key = Ok v → ∃ items, data = JObj items ∧ assoc key items = Some v.
Proof.
  destruct data; simpl; try done. intros H. eexists. split; [done|].
  by destruct (assoc key items) as [x|]; [injection H as ->|].
Qed.

(** X7.  Every response of [POST /blur] has status 200, 400 or 500; its body
    carries [success], which is true exactly when the status is 200; and a
    body that is not a success is [{success: false, error}] with a text. *)
Theorem blur_video_response_shape env req s :
  let resp := (blur_video env req s).1 in
  (status resp = 200 ∨ status resp = 400 ∨ status resp = 500) ∧
  py_getitem (body resp) "success" = Ok (JBool (status resp =? 200)) ∧
  (status resp ≠ 200 → ∃ msg, body resp = error_body msg).
Proof.
  intros resp. unfold resp.
  destruct (blur_video_run env req s); simpl; split_and!; eauto; done.
Qed.

(** X8.  A body that is not a JSON object never starts a download: the
    state is returned unchanged, the status is 400 or 500, and it is 400
    when the body is falsy ([None], [false], zero, an empty string or
    list). *)
Theorem blur_video_non_object env req s data resp s' :
  get_json req = Ok data →
  (∀ items, data ≠ JObj items) →
  blur_video env req s = (resp, s') →
  s' = s ∧ (status resp = 400 ∨ status resp = 500) ∧
  (truthy data = false → status resp = 400).
Proof.
  intros Hj Hno Hrun. apply blur_video_inv in Hrun.
  assert (Hsub : ∀ v, py_getitem data "videoUrl" = Ok v → False).
  { intros v Hv. apply py_getitem_object in Hv as (items & -> & _). by eapply Hno. }
  assert (Hfalsy : truthy data = false → missing_videoUrl data = Ok true).
  { intros Ht. unfold missing_videoUrl. by rewrite Ht. }
  destruct Hrun as [msg Hj'|d msg Hj' Hm|d Hj' Hm|d msg Hj' Hm Hg
                    |d url msg s1 Hj' Hm Hg|d url inp s1 n s2 Hj' Hm Hg
                    |d url inp s1 n s2 Hj' Hm Hg|d url inp s1 n s2 c Hj' Hm Hg];
    rewrite Hj in Hj'; try injection Hj' as <-; try (by destruct (Hsub _ Hg));
    simpl; split_and!; auto; try done.
  - intros Ht. apply Hfalsy in Ht. congruence.
  - intros Ht. apply Hfalsy in Ht. congruence.
Qed.

(** X9.  A request changes no file other than the temporary input file and
    the output file named after it. *)
Theorem blur_video_other_files env req s resp s' p :
  blur_video env req s = (resp, s') →
  p ≠ tmp_stem env +:+ ".mp4" →
  p ≠ blurred_name (tmp_stem env +:+ ".mp4") →
  fs s' !! p = fs s !! p.
Proof.
  intros Hrun Hin Hout. apply blur_video_inv in Hrun.
  destruct Hrun as [| | | |d url msg s1 _ _ _ Hd|d url inp s1 n s2 _ _ _ Hd Hp
                    |d url inp s1 n s2 _ _ _ Hd Hp|d url inp s1 n s2 c _ _ _ Hd Hp];
    try done.
  - by apply download_video_run in Hd as (_ & Hfs & _); apply Hfs.
  - pose proof (download_video_run _ _ _ _ _ Hd) as (_ & Hfs & Hok).
    destruct (Hok _ eq_refl) as [-> _].
    rewrite (process_video_keeps_other_files _ _ _ _ _ _ _ Hp) by done. by apply Hfs.
  - pose proof (download_video_run _ _ _ _ _ Hd) as (_ & Hfs & Hok).
    destruct (Hok _ eq_refl) as [-> _].
    rewrite (process_video_keeps_other_files _ _ _ _ _ _ _ Hp) by done. by apply Hfs.
  - pose proof (download_video_run _ _ _ _ _ Hd) as (_ & Hfs & Hok).
    destruct (Hok _ eq_refl) as [-> _]. simpl.
    rewrite fs_after_remove_ne by done.
    rewrite (process_video_keeps_other_files _ _ _ _ _ _ _ Hp) by done. by apply Hfs.
Qed.

(** X10.  In a response with status 200, [outputPath] names a file that is
    on disk when the request ends, and [fileSize] is the length of that
    file. *)
Theorem blur_video_reports_output env req s resp s' :
  blur_video env req s = (resp, s') →
  status resp = 200 →
  ∃ out content,
    py_getitem (body resp) "outputPath" = Ok (JStr out) ∧
    fs s' !! out = Some content ∧
    py_getitem (body resp) "fileSize" = Ok (JInt (len content)).
Proof.
  intros Hrun Hst. apply blur_video_inv in Hrun.
  destruct Hrun as [| | | | | | |d url inp s1 n s2 c _ _ _ Hd Hp Hc];
    simpl in Hst; try discriminate.
  exists (blurred_name inp), c. split_and!; [done| |done].
  apply download_video_run in Hd as (_ & _ & Hok).
  destruct (Hok _ eq_refl) as [-> _]. simpl.
  rewrite fs_after_remove_ne; [done|]. apply blurred_name_fresh.
Qed.

(** X11.  The calls of a request that is answered with status 200, in their
    order: one GET, one capture of the temporary file, then complete loop
    iterations only (read, detect, write), and last the removal of the
    temporary file. *)
Theorem blur_video_calls_in_order env req s resp s' :
  blur_video env req s = (resp, s') →
  status resp = 200 →
  ∃ url its,
    Forall (iteration_ok env) its ∧
    new_events s s' =
      [EvGet url; EvCapture (tmp_stem env +:+ ".mp4")] ++
      (its ≫= iteration_events (blurred_name (tmp_stem env +:+ ".mp4"))) ++
      [EvRemove (tmp_stem env +:+ ".mp4")].
Proof.
  intros Hrun Hst. apply blur_video_inv in Hrun.
  destruct Hrun as [| | | | | | |d url inp s1 n s2 c _ _ _ Hd Hp Hc];
    simpl in Hst; try discriminate.
  apply download_video_run in Hd as (Htr1 & _ & Hok).
  destruct (Hok _ eq_refl) as [-> _].
  apply process_video_run in Hp as (rb & Hb & Hr).
  destruct rb as [k|]; [|done].
  apply process_video_body_run in Hb as (dn & tail & Hdn & Htr2 & _ & _ & _ & Hres).
  destruct (Hres _ eq_refl) as (? & ? & ? & ? & _ & _ & _ & _ & _ & -> & _).
  exists url, dn. split; [done|]. apply new_events_app. simpl.
  rewrite Htr2, Htr1, app_nil_r. by rewrite <- !app_assoc.
Qed.



(** ** [apply_face_blur], further *)

Lemma GaussianBlur_shape env src ksize sigma b :
  GaussianBlur env src ksize sigma = Ok b → shape b = shape src.
Proof.
  unfold GaussianBlur. destruct (blur_error env src ksize sigma); [done|].
  intros [= <-]. unfold shape. apply list_eq. intros i.
  rewrite !list_lookup_fmap, list_lookup_imap.
  destruct (src !! i); simpl; [|done]. by rewrite length_imap.
Qed.

Lemma GaussianBlur_pixel env src ksize sigma b i j p :
  GaussianBlur env src ksize sigma = Ok b →
  pixel_at src i j = Some p →
  pixel_at b i j = Some (blur_pixel env src ksize sigma i j).
Proof.
  unfold GaussianBlur. destruct (blur_error env src ksize sigma); [done|].
  intros [= <-]. unfold pixel_at. rewrite list_lookup_imap.
  destruct (src !! i) as [row|]; simpl; [|done]. rewrite list_lookup_imap.
  by destruct (row !! j).
Qed.

(** X13.  The frame that [apply_face_blur] returns has the shape of the
    frame it was given, whatever the rectangles are. *)
Theorem apply_face_blur_shape env f faces b :
  apply_face_blur env f faces = Ok b → shape b = shape f.
Proof.
  unfold apply_face_blur. revert f.
  induction faces as [|[[[x y] w] h] rest IH]; intros f Hb; simpl in Hb.
  - by injection Hb as <-.
  - destruct (GaussianBlur env _ _ _) as [blurred|msg]; [|done].
    apply IH in Hb. by rewrite shape_setitem2d in Hb.
Qed.

Lemma pixel_at_ext (a b : frame) :
  shape a = shape b → (∀ i j, pixel_at a i j = pixel_at b i j) → a = b.
Proof.
  intros Hsh Hpix. apply list_eq. intros i.
  assert (Hi : shape a !! i = shape b !! i) by (by rewrite Hsh).
  unfold shape in Hi. rewrite !list_lookup_fmap in Hi.
  destruct (a !! i) as [ra|] eqn:Ha, (b !! i) as [rb|] eqn:Hb; try done.
  f_equal. apply list_eq. intros j. specialize (Hpix i j).
  unfold pixel_at in Hpix. by rewrite Ha, Hb in Hpix.
Qed.

Lemma pixel_at_getitem2d a y0 y1 x0 x1 i j :
  in_slice (length a) y0 y1 i = true →
  (∀ row, a !! i = Some row → in_slice (length row) x0 x1 j = true) →
  pixel_at (getitem2d a y0 y1 x0 x1)
    (i - slice_bound (length a) y0)
    (j - match a !! i with
         | Some row => slice_bound (length row) x0
         | None => 0
         end) = pixel_at a i j.
Proof.
  intros Hi Hj. unfold pixel_at, getitem2d.
  rewrite list_lookup_fmap, slice_lookup by done.
  destruct (a !! i) as [row|] eqn:Hrow; simpl; [|done].
  by rewrite slice_lookup by auto.
Qed.

(** One assignment of a blurred region, pixel by pixel. *)
Lemma pixel_at_blur_step env a y0 y1 x0 x1 ksize sigma blurred i j :
  GaussianBlur env (getitem2d a y0 y1 x0 x1) ksize sigma = Ok blurred →
  pixel_at (setitem2d a y0 y1 x0 x1 blurred) i j =
  match a !! i with
  | Some row =>
      if in_slice (length a) y0 y1 i && in_slice (length row) x0 x1 j then
        _ ← row !! j;
        Some (blur_pixel env (getitem2d a y0 y1 x0 x1) ksize sigma
                (i - slice_bound (length a) y0)
                (j - slice_bound (length row) x0))
      else row !! j
  | None => None
  end.
Proof.
  intros Hg. unfold pixel_at at 1. unfold setitem2d. rewrite list_lookup_imap.
  destruct (a !! i) as [row|] eqn:Hrow; simpl; [|done].
  destruct (in_slice (length a) y0 y1 i) eqn:Hi; simpl; [|done].
  rewrite list_lookup_imap. destruct (row !! j) as [p|] eqn:Hp; simpl.
  2:{ by destruct (in_slice (length row) x0 x1 j). }
  destruct (in_slice (length row) x0 x1 j) eqn:Hj; [|done].
  pose proof (pixel_at_getitem2d a y0 y1 x0 x1 i j Hi) as Hread.
  rewrite Hrow in Hread. specialize (Hread ltac:(by intros ? [= <-])).
  assert (Hsrc : pixel_at (getitem2d a y0 y1 x0 x1)
                   (i - slice_bound (length a) y0)
                   (j - slice_bound (length row) x0) = Some p).
  { rewrite Hread. unfold pixel_at. by rewrite Hrow. }
  pose proof (GaussianBlur_pixel _ _ _ _ _ _ _ _ Hg Hsrc) as Hb.
  unfold pixel_at in Hb. by rewrite Hb.
Qed.

(** X14.  With a kernel that returns every pixel as it is,
    [apply_face_blur] returns the frame it was given, whatever the
    rectangles are: slicing and assigning back move no pixel. *)
Theorem apply_face_blur_identity_kernel env f faces b :
  identity_kernel env →
  apply_face_blur env f faces = Ok b → b = f.
Proof.
  intros Hid. unfold apply_face_blur. revert f.
  induction faces as [|[[[x y] w] h] rest IH]; intros f Hb; simpl in Hb.
  - by injection Hb as <-.
  - destruct (GaussianBlur env _ _ _) as [blurred|msg] eqn:Hg; [|done].
    apply IH in Hb. rewrite Hb. apply pixel_at_ext; [apply shape_setitem2d|].
    intros i j. rewrite (pixel_at_blur_step _ _ _ _ _ _ _ _ _ _ _ Hg).
    unfold pixel_at. destruct (f !! i) as [row|] eqn:Hrow; simpl; [|done].
    destruct (in_slice (length f) y (y + h) i && in_slice (length row) x (x + w) j)
      eqn:Hin; [|done].
    destruct (row !! j) as [p|] eqn:Hp; simpl; [|done]. f_equal.
    apply Hid. apply andb_true_iff in Hin as [Hi Hj].
    pose proof (pixel_at_getitem2d f y (y + h) x (x + w) i j Hi) as Hread.
    rewrite Hrow in Hread. rewrite Hread by (by intros ? [= <-]).
    unfold pixel_at. by rewrite Hrow.
Qed.

Lemma int32_add_fits a b : fits_int32 (a + b) → int32_add a b = a + b.
Proof.
  unfold fits_int32, int32_add. intros H. rewrite Z.mod_small by lia. lia.
Qed.

Example int32_add_wraps : int32_add 1 2147483647 = -2147483648.
Proof. reflexivity. Qed.

(** X15.  For one rectangle with origin and size not negative, whose far
    corner [x + w], [y + h] fits int32 (so that the sums numpy computes do
    not wrap), every pixel of the frame inside the clipped rectangle is
    replaced by what the kernel computes, with window 99 by 99 and sigma 51,
    from the face region [a[y:y+h, x:x+w]] alone (the pixels of the frame outside the
    rectangle are not given to the kernel), at the pixel's position relative
    to the rectangle's origin. *)
Theorem apply_face_blur_inside env a x y w h b i j :
  rect_wf (x, y, w, h) →
  fits_int32 (x + w) →
  fits_int32 (y + h) →
  apply_face_blur env a [(x, y, w, h)] = Ok b →
  in_clipped_rect a (x, y, w, h) i j →
  pixel_at b i j =
    Some (blur_pixel env (getitem2d a y (int32_add y h) x (int32_add x w))
            (99, 99) 51 (i - Z.to_nat y) (j - Z.to_nat x)).
Proof.
  intros (Hx & Hy & Hw & Hh) Hfx Hfy Hb (row & Hrow & Hi & Hj).
  rewrite (int32_add_fits _ _ Hfx), (int32_add_fits _ _ Hfy).
  unfold apply_face_blur in Hb. simpl in Hb.
  destruct (GaussianBlur env _ _ _) as [blurred|msg] eqn:Hg; [|done].
  injection Hb as <-. rewrite (pixel_at_blur_step _ _ _ _ _ _ _ _ _ _ _ Hg), Hrow.
  assert (Hby : slice_bound (length a) y = Z.to_nat y).
  { unfold slice_bound. destruct (y <? 0) eqn:E; lia. }
  assert (Hbx : slice_bound (length row) x = Z.to_nat x).
  { unfold slice_bound. destruct (x <? 0) eqn:E; lia. }
  assert (Hin : in_slice (length a) y (y + h) i && in_slice (length row) x (x + w) j = true).
  { unfold in_slice, slice_bound.
    destruct (y <? 0) eqn:E1, (y + h <? 0) eqn:E2, (x <? 0) eqn:E3, (x + w <? 0) eqn:E4;
      try lia.
    rewrite !andb_true_iff, !Nat.leb_le, !Nat.ltb_lt. lia. }
  rewrite Hin, Hby, Hbx.
  destruct (row !! j) as [p|] eqn:Hp; [done|].
  apply lookup_ge_None in Hp. lia.
Qed.

(** X16.  On the store, [apply_face_blur] only allocates: every array that
    existed before the call is still there with the value it had, whether the
    call returns or raises. *)
Theorem store_apply_face_blur_preserves env (h : list frame) f faces r h' :
  Store.apply_face_blur env f faces h = (r, h') →
  (length h ≤ length h')%nat ∧
  ∀ l, (l < length h)%nat → h' !! l = h !! l.
Proof.
  intros Hrun. unfold Store.apply_face_blur in Hrun.
  destruct (h !! f) as [a|] eqn:Hf.
  2:{ injection Hrun as <- <-. by split. }
  simpl in Hrun.
  destruct (Store.blur_faces env (length h) faces (h ++ [a])) as [r1 h2] eqn:Hb.
  apply (store_blur_faces _ _ _ _ a) in Hb as [Hsame _].
  2:{ rewrite lookup_app_r, Nat.sub_diag by lia. done. }
  assert (Hh : h' = h2) by (destruct r1 as [[]|]; by injection Hrun). subst h2.
  assert (Hkeep : ∀ l, (l < length h)%nat → h' !! l = h !! l).
  { intros l Hl. rewrite Hsame; [by rewrite lookup_app_l|lia|rewrite length_app; lia]. }
  split; [|done].
  destruct (decide (length h ≤ length h')%nat) as [|Hlt]; [done|]. exfalso.
  assert (Hl : (length h' < length h)%nat) by lia.
  specialize (Hkeep _ Hl). rewrite lookup_ge_None_2 in Hkeep by lia.
  symmetry in Hkeep. apply lookup_ge_None in Hkeep. lia.
Qed.

(** ** The further properties at concrete inputs *)


Lemma process_video_uncounted_witness :
  ∃ s', process_video demo_uncounted_env demo_input demo_output demo_clip_state
          = ((false, 0), s') ∧
        reads (new_events demo_clip_state s') = take 30 (v_frames demo_uncounted_video) ∧
        length (writes (new_events demo_clip_state s')) = 30%nat.
Proof.
  apply (process_video_uncounted demo_uncounted_env demo_input demo_output
           demo_clip_state demo_uncounted_video 30 3 2).
  - vm_compute. reflexivity.
  - by repeat split.
  - apply Forall_replicate. eexists. vm_compute. reflexivity.
  - simpl. lia.
Defined.

Lemma process_video_output_on_disk_witness :
  fs demo_run.2 =
    <[demo_output := encode demo_env mp4v 30 (3, 2)
                       (writes (new_events demo_clip_state demo_run.2))]>
      (fs demo_clip_state).
Proof.
  apply (process_video_output_on_disk demo_env demo_input demo_output
           demo_clip_state demo_video 30 3 2 2 demo_run.1 demo_run.2).
  - vm_compute. reflexivity.
  - by repeat split.
  - vm_compute. reflexivity.
Defined.



Lemma blur_video_non_object_witness :
  demo_state = demo_state ∧
  (status (error_response 400 "Missing videoUrl parameter") = 400 ∨
   status (error_response 400 "Missing videoUrl parameter") = 500) ∧
  (truthy (JArr []) = false →
   status (error_response 400 "Missing videoUrl parameter") = 400).
Proof.
  apply (blur_video_non_object demo_env {| get_json := Ok (JArr []) |} demo_state
           (JArr []) (error_response 400 "Missing videoUrl parameter") demo_state).
  - reflexivity.
  - intros items [=].
  - reflexivity.
Defined.

Lemma blur_video_other_files_witness :
  fs (blur_video demo_env demo_clip_request demo_disk_state).2 !! "/etc/hosts"
  = fs demo_disk_state !! "/etc/hosts".
Proof.
  apply (blur_video_other_files demo_env demo_clip_request demo_disk_state
           (blur_video demo_env demo_clip_request demo_disk_state).1
           (blur_video demo_env demo_clip_request demo_disk_state).2
           "/etc/hosts").
  - vm_compute. reflexivity.
  - vm_compute. discriminate.
  - vm_compute. discriminate.
Defined.

Lemma blur_video_reports_output_witness :
  ∃ out content,
    py_getitem (body (blur_video demo_env demo_clip_request demo_state).1) "outputPath"
      = Ok (JStr out) ∧
    fs (blur_video demo_env demo_clip_request demo_state).2 !! out = Some content ∧
    py_getitem (body (blur_video demo_env demo_clip_request demo_state).1) "fileSize"
      = Ok (JInt (len content)).
Proof.
  apply (blur_video_reports_output demo_env demo_clip_request demo_state).
  - vm_compute. reflexivity.
  - vm_compute. reflexivity.
Defined.

Lemma blur_video_calls_in_order_witness :
  ∃ url its,
    Forall (iteration_ok demo_env) its ∧
    new_events demo_state (blur_video demo_env demo_clip_request demo_state).2 =
      [EvGet url; EvCapture (tmp_stem demo_env +:+ ".mp4")] ++
      (its ≫= iteration_events (blurred_name (tmp_stem demo_env +:+ ".mp4"))) ++
      [EvRemove (tmp_stem demo_env +:+ ".mp4")].
Proof.
  apply (blur_video_calls_in_order demo_env demo_clip_request demo_state
           (blur_video demo_env demo_clip_request demo_state).1).
  - vm_compute. reflexivity.
  - vm_compute. reflexivity.
Defined.


Lemma blur_video_cleans_up_on_success_witness :
  (is_Some (fs (blur_video demo_env demo_clip_request demo_state).2
              !! blurred_name (temp_name demo_env)) ∧
   (fs (blur_video demo_env demo_clip_request demo_state).2 !! temp_name demo_env = None
    ↔ remove_error demo_env (temp_name demo_env) = None)) ∧
  (is_Some (fs (blur_video demo_sticky_env demo_clip_request demo_state).2
              !! blurred_name (temp_name demo_sticky_env)) ∧
   (fs (blur_video demo_sticky_env demo_clip_request demo_state).2
      !! temp_name demo_sticky_env = None
    ↔ remove_error demo_sticky_env (temp_name demo_sticky_env) = None)).
Proof.
  split.
  - apply (blur_video_cleans_up_on_success demo_env demo_clip_request demo_state
             (blur_video demo_env demo_clip_request demo_state).1).
    + vm_compute. reflexivity.
    + vm_compute. reflexivity.
  - apply (blur_video_cleans_up_on_success demo_sticky_env demo_clip_request demo_state
             (blur_video demo_sticky_env demo_clip_request demo_state).1).
    + vm_compute. reflexivity.
    + vm_compute. reflexivity.
Defined.

Lemma blurred_name_plain_witness :
  blurred_name ("/tmp/tmpk3x9a_bq" +:+ ".mp4") = "/tmp/tmpk3x9a_bq" +:+ "_blurred.mp4".
Proof. apply (blurred_name_plain "/tmp/tmpk3x9a_bq"). reflexivity. Defined.

Lemma apply_face_blur_shape_witness :
  shape [[(1, 2, 3); (0, 0, 0); (7, 8, 9)]; [(10, 11, 12); (13, 14, 15); (16, 17, 18)]]
  = shape demo_frame.
Proof.
  apply (apply_face_blur_shape demo_env demo_frame [(-2, 0, 1, 1)]). reflexivity.
Defined.

Lemma apply_face_blur_identity_kernel_witness :
  demo_frame = demo_frame ∧
  apply_face_blur demo_plain_env demo_frame [(1, 0, 5, 1); (-2, 1, 1, 7)] = Ok demo_frame.
Proof.
  split; [|reflexivity].
  apply (apply_face_blur_identity_kernel demo_plain_env demo_frame
           [(1, 0, 5, 1); (-2, 1, 1, 7)]).
  - intros src ksize sigma i j p Hp. simpl. by rewrite Hp.
  - reflexivity.
Defined.

Lemma apply_face_blur_inside_witness :
  pixel_at [[(1, 2, 3); (0, 0, 0); (7, 8, 9)]; [(10, 11, 12); (13, 14, 15); (16, 17, 18)]]
    0 1 =
  Some (blur_pixel demo_env
          (getitem2d demo_frame 0 (int32_add 0 1) 1 (int32_add 1 1)) (99, 99) 51
          (0 - Z.to_nat 0) (1 - Z.to_nat 1)).
Proof.
  apply (apply_face_blur_inside demo_env demo_frame 1 0 1 1).
  - simpl. lia.
  - unfold fits_int32. lia.
  - unfold fits_int32. lia.
  - reflexivity.
  - eexists. split; [reflexivity|]. simpl. lia.
Defined.

Lemma store_apply_face_blur_preserves_witness :
  (length demo_store ≤ length (Store.apply_face_blur demo_env 0 demo_faces demo_store).2)%nat ∧
  ∀ l, (l < length demo_store)%nat →
       (Store.apply_face_blur demo_env 0 demo_faces demo_store).2 !! l = demo_store !! l.
Proof.
  apply (store_apply_face_blur_preserves demo_env demo_store 0 demo_faces
           (Store.apply_face_blur demo_env 0 demo_faces demo_store).1).
  reflexivity.
Defined.

